(** * Shader interface description and the Null rendering backend

    A shallow embedding of two translation units of the Qt rendering
    hardware interface:

    - the shader description ([QShaderDescription]): its enumerations, the
      two token tables with their linear lookups, and the JSON encoder
      ([makeDoc]) and decoder ([loadDoc]);
    - the Null backend ([QRhiNull] and the [QNull*] resources): resource
      building, the frame cycle of a swapchain and texture readbacks.

    C++ [int] fields are integers of [Z]; where the source stores a value
    in a fixed-width unsigned variable the reduction modulo the width is
    written out. *)

From Stdlib Require Import ZArith String List Bool Lia.
From stdpp Require Import base decidable option list gmap.
Import ListNotations.

Local Open Scope string_scope.
Local Open Scope Z_scope.

(** ** C++ integers *)

Definition INT_MIN : Z := - 2 ^ 31.
Definition INT_MAX : Z := 2 ^ 31 - 1.

(** A value representable in a C++ [int]. *)
Definition is_int (z : Z) : bool := (INT_MIN <=? z) && (z <=? INT_MAX).

(** ** Enumerations of the shader description *)

Module QShaderDescription.

(** [QShaderDescription::VariableType], as documented in the class
    reference. *)
Inductive VariableType : Set :=
| Unknown
| Float | Vec2 | Vec3 | Vec4
| Mat2 | Mat2x3 | Mat2x4 | Mat3 | Mat3x2 | Mat3x4 | Mat4 | Mat4x2 | Mat4x3
| Int | Int2 | Int3 | Int4
| Uint | Uint2 | Uint3 | Uint4
| Bool | Bool2 | Bool3 | Bool4
| Double | Double2 | Double3 | Double4
| DMat2 | DMat2x3 | DMat2x4 | DMat3 | DMat3x2 | DMat3x4 | DMat4 | DMat4x2 | DMat4x3
| Sampler1D | Sampler2D | Sampler2DMS | Sampler3D | SamplerCube
| Sampler1DArray | Sampler2DArray | Sampler2DMSArray | Sampler3DArray
| SamplerCubeArray | SamplerRect | SamplerBuffer
| Image1D | Image2D | Image2DMS | Image3D | ImageCube
| Image1DArray | Image2DArray | Image2DMSArray | Image3DArray
| ImageCubeArray | ImageRect | ImageBuffer
| Struct.

(** [QShaderDescription::ImageFormat]: the enumerators that the image
    format table of the source names. *)
Inductive ImageFormat : Set :=
| ImageFormatUnknown
| ImageFormatRgba32f | ImageFormatRgba16f | ImageFormatR32f
| ImageFormatRgba8 | ImageFormatRgba8Snorm
| ImageFormatRg32f | ImageFormatRg16f | ImageFormatR11fG11fB10f
| ImageFormatR16f | ImageFormatRgba16 | ImageFormatRgb10A2
| ImageFormatRg16 | ImageFormatRg8 | ImageFormatR16 | ImageFormatR8
| ImageFormatRgba16Snorm | ImageFormatRg16Snorm | ImageFormatRg8Snorm
| ImageFormatR16Snorm | ImageFormatR8Snorm
| ImageFormatRgba32i | ImageFormatRgba16i | ImageFormatRgba8i
| ImageFormatR32i | ImageFormatRg32i | ImageFormatRg16i | ImageFormatRg8i
| ImageFormatR16i | ImageFormatR8i
| ImageFormatRgba32ui | ImageFormatRgba16ui | ImageFormatRgba8ui
| ImageFormatR32ui | ImageFormatRgb10a2ui | ImageFormatRg32ui
| ImageFormatRg16ui | ImageFormatRg8ui | ImageFormatR16ui | ImageFormatR8ui.

#[global] Instance VariableType_eq_dec : EqDecision VariableType.
Proof. solve_decision. Defined.

#[global] Instance ImageFormat_eq_dec : EqDecision ImageFormat.
Proof. solve_decision. Defined.

(** *** Token tables

    [QString()] (the null string) and the empty string compare equal in
    Qt; both are the empty [string] here. *)

Definition typeTab : list (string * VariableType) :=
  [ ("float", Float); ("vec2", Vec2); ("vec3", Vec3); ("vec4", Vec4);
    ("mat2", Mat2); ("mat3", Mat3); ("mat4", Mat4);
    ("struct", Struct);
    ("sampler1D", Sampler1D); ("sampler2D", Sampler2D);
    ("sampler2DMS", Sampler2DMS); ("sampler3D", Sampler3D);
    ("samplerCube", SamplerCube); ("sampler1DArray", Sampler1DArray);
    ("sampler2DArray", Sampler2DArray);
    ("sampler2DMSArray", Sampler2DMSArray);
    ("sampler3DArray", Sampler3DArray);
    ("samplerCubeArray", SamplerCubeArray);
    ("samplerRect", SamplerRect); ("samplerBuffer", SamplerBuffer);
    ("mat2x3", Mat2x3); ("mat2x4", Mat2x4); ("mat3x2", Mat3x2);
    ("mat3x4", Mat3x4); ("mat4x2", Mat4x2); ("mat4x3", Mat4x3);
    ("int", Int); ("ivec2", Int2); ("ivec3", Int3); ("ivec4", Int4);
    ("uint", Uint); ("uvec2", Uint2); ("uvec3", Uint3); ("uvec4", Uint4);
    ("bool", Bool); ("bvec2", Bool2); ("bvec3", Bool3); ("bvec4", Bool4);
    ("double", Double); ("dvec2", Double2); ("dvec3", Double3);
    ("dvec4", Double4);
    ("dmat2", DMat2); ("dmat3", DMat3); ("dmat4", DMat4);
    ("dmat2x3", DMat2x3); ("dmat2x4", DMat2x4); ("dmat3x2", DMat3x2);
    ("dmat3x4", DMat3x4); ("dmat4x2", DMat4x2); ("dmat4x3", DMat4x3);
    ("image1D", Image1D); ("image2D", Image2D); ("image2DMS", Image2DMS);
    ("image3D", Image3D); ("imageCube", ImageCube);
    ("image1DArray", Image1DArray); ("image2DArray", Image2DArray);
    ("image2DMSArray", Image2DMSArray); ("image3DArray", Image3DArray);
    ("imageCubeArray", ImageCubeArray); ("imageRect", ImageRect);
    ("imageBuffer", ImageBuffer) ].

Definition imageFormatTab : list (string * ImageFormat) :=
  [ ("unknown", ImageFormatUnknown);
    ("rgba32f", ImageFormatRgba32f);
    ("rgba16", ImageFormatRgba16f);
    ("r32f", ImageFormatR32f);
    ("rgba8", ImageFormatRgba8);
    ("rgba8_snorm", ImageFormatRgba8Snorm);
    ("rg32f", ImageFormatRg32f);
    ("rg16f", ImageFormatRg16f);
    ("r11f_g11f_b10f", ImageFormatR11fG11fB10f);
    ("r16f", ImageFormatR16f);
    ("rgba16", ImageFormatRgba16);
    ("rgb10_a2", ImageFormatRgb10A2);
    ("rg16", ImageFormatRg16);
    ("rg8", ImageFormatRg8);
    ("r16", ImageFormatR16);
    ("r8", ImageFormatR8);
    ("rgba16_snorm", ImageFormatRgba16Snorm);
    ("rg16_snorm", ImageFormatRg16Snorm);
    ("rg8_snorm", ImageFormatRg8Snorm);
    ("r16_snorm", ImageFormatR16Snorm);
    ("r8_snorm", ImageFormatR8Snorm);
    ("rgba32i", ImageFormatRgba32i);
    ("rgba16i", ImageFormatRgba16i);
    ("rgba8i", ImageFormatRgba8i);
    ("r32i", ImageFormatR32i);
    ("rg32i", ImageFormatRg32i);
    ("rg16i", ImageFormatRg16i);
    ("rg8i", ImageFormatRg8i);
    ("r16i", ImageFormatR16i);
    ("r8i", ImageFormatR8i);
    ("rgba32ui", ImageFormatRgba32ui);
    ("rgba16ui", ImageFormatRgba16ui);
    ("rgba8ui", ImageFormatRgba8ui);
    ("r32ui", ImageFormatR32ui);
    ("rgb10_a2ui", ImageFormatRgb10a2ui);
    ("rg32ui", ImageFormatRg32ui);
    ("rg16ui", ImageFormatRg16ui);
    ("rg8ui", ImageFormatRg8ui);
    ("r16ui", ImageFormatR16ui);
    ("r8ui", ImageFormatR8ui) ].

(** The two loops of the source, [for (i = 0; i < n; ++i) if (tab[i].v ==
    t) return tab[i].k;] and its mirror image, over any table. *)
Section Lookup.
Context {E : Set} `{EqDecision E}.

Fixpoint scanByValue (tab : list (string * E)) (t : E) : string :=
    match tab with
    | [] => ""
    | (k, v) :: rest => if decide (v = t) then k else scanByValue rest t
    end.

Fixpoint scanByKey (tab : list (string * E)) (unknown : E) (t : string) : E :=
    match tab with
    | [] => unknown
    | (k, v) :: rest => if String.eqb k t then v else scanByKey rest unknown t
    end.
End Lookup.

(** *** Plain data of the description

    Modelled from the spec: the struct declarations live in the class
    header, which is not part of these sources.  The fields are those the
    encoder and decoder access; a default-constructed value holds the
    absence sentinels of the data model (-1 for location, binding and
    descriptor set, the unknown type and format, 0 for flags, strides,
    offsets and sizes, false for row-major, empty lists). *)

Module InOutVariable.
Record t : Set := mk {
    name : string;
    type : VariableType;
    location : Z;
    binding : Z;
    descriptorSet : Z;
    imageFormat : ImageFormat;
    imageFlags : Z
  }.

Definition default : t :=
    {| name := ""; type := Unknown; location := -1; binding := -1;
       descriptorSet := -1; imageFormat := ImageFormatUnknown;
       imageFlags := 0 |}.
End InOutVariable.

Module BlockVariable.
#[local] Unset Elimination Schemes.
Inductive t : Set := mk {
    name : string;
    type : VariableType;
    offset : Z;
    size : Z;
    arrayDims : list Z;
    arrayStride : Z;
    matrixStride : Z;
    matrixIsRowMajor : bool;
    structMembers : list t
  }.
#[local] Set Elimination Schemes.

Definition default : t :=
    {| name := ""; type := Unknown; offset := 0; size := 0;
       arrayDims := []; arrayStride := 0; matrixStride := 0;
       matrixIsRowMajor := false; structMembers := [] |}.
End BlockVariable.

Module UniformBlock.
Record t : Set := mk {
    blockName : string;
    structName : string;
    size : Z;
    binding : Z;
    descriptorSet : Z;
    members : list BlockVariable.t
  }.

Definition default : t :=
    {| blockName := ""; structName := ""; size := 0; binding := -1;
       descriptorSet := -1; members := [] |}.
End UniformBlock.

Module PushConstantBlock.
Record t : Set := mk {
    name : string;
    size : Z;
    members : list BlockVariable.t
  }.

Definition default : t := {| name := ""; size := 0; members := [] |}.
End PushConstantBlock.

Module StorageBlock.
Record t : Set := mk {
    blockName : string;
    instanceName : string;
    knownSize : Z;
    binding : Z;
    descriptorSet : Z;
    members : list BlockVariable.t
  }.

Definition default : t :=
    {| blockName := ""; instanceName := ""; knownSize := 0; binding := -1;
       descriptorSet := -1; members := [] |}.
End StorageBlock.

End QShaderDescription.

Import QShaderDescription.

Definition typeStr (t : VariableType) : string := scanByValue typeTab t.
Definition mapType (t : string) : VariableType := scanByKey typeTab Unknown t.

Definition imageFormatStr (f : ImageFormat) : string :=
  scanByValue imageFormatTab f.
Definition mapImageFormat (f : string) : ImageFormat :=
  scanByKey imageFormatTab ImageFormatUnknown f.

(** ** The JSON document container

    Modelled from the spec: [QJsonValue], [QJsonObject], [QJsonArray] and
    [QJsonDocument] belong to the core library and are not part of these
    sources.  The portable document of the spec is made of objects with
    string keys, ordered arrays, strings, integers and booleans.  A number
    is the integer it was built from: every number the encoder writes
    comes from a C++ [int], which the container's double holds exactly. *)

#[local] Unset Elimination Schemes.
Inductive QJsonValue : Set :=
| JNull
| JBool (b : bool)
| JDouble (n : Z)
| JString (s : string)
| JArray (a : list QJsonValue)
| JObject (o : list (string * QJsonValue))
| JUndefined.
#[local] Set Elimination Schemes.

(** An object maps each key to one value; an array is a sequence. *)
Definition QJsonArray : Set := list QJsonValue.
Definition QJsonObject : Set := list (string * QJsonValue).

(** Conversions: a value of another kind converts to the default. *)
Definition toString (v : QJsonValue) : string :=
  match v with JString s => s | _ => "" end.

Definition toInt (v : QJsonValue) : Z :=
  match v with JDouble n => if is_int n then n else 0 | _ => 0 end.

Definition toBool (v : QJsonValue) : bool :=
  match v with JBool b => b | _ => false end.

Definition toArray (v : QJsonValue) : QJsonArray :=
  match v with JArray a => a | _ => [] end.

Definition toObject (v : QJsonValue) : QJsonObject :=
  match v with JObject o => o | _ => [] end.

(** [valueWith f key obj] is [f (obj[key])]: [f] applied to the value
    stored under [key], or to the undefined value when the key is absent.
    The decoder of block members recurses through it. *)
Definition valueWith {A : Type} (f : QJsonValue -> A) (key : string)
  : QJsonObject -> A :=
  fix go (obj : QJsonObject) : A :=
    match obj with
    | [] => f JUndefined
    | (k, v) :: rest => if String.eqb k key then f v else go rest
    end.

(** [obj[key]] read from a constant object, [obj.contains(key)] and the
    assignment [obj[key] = v]. *)
Definition value (obj : QJsonObject) (key : string) : QJsonValue :=
  valueWith (fun v => v) key obj.

Fixpoint contains (obj : QJsonObject) (key : string) : bool :=
  match obj with
  | [] => false
  | (k, _) :: rest => String.eqb k key || contains rest key
  end.

Fixpoint insert (key : string) (v : QJsonValue) (obj : QJsonObject)
  : QJsonObject :=
  match obj with
  | [] => [(key, v)]
  | (k, w) :: rest =>
      if String.eqb k key then (k, v) :: rest else (k, w) :: insert key v rest
  end.

(** A document is null, or holds an object or an array. *)
Inductive QJsonDocument : Set :=
| DocNull
| DocObject (o : QJsonObject)
| DocArray (a : QJsonArray).

Definition isNull (doc : QJsonDocument) : bool :=
  match doc with DocNull => true | _ => false end.

(** [doc.object()]: the empty object unless the document holds one. *)
Definition object (doc : QJsonDocument) : QJsonObject :=
  match doc with DocObject o => o | _ => [] end.

(** ** Encoding a description *)

Definition nameKey := "name".
Definition typeKey := "type".
Definition locationKey := "location".
Definition bindingKey := "binding".
Definition setKey := "set".
Definition imageFormatKey := "imageFormat".
Definition imageFlagsKey := "imageFlags".
Definition offsetKey := "offset".
Definition arrayDimsKey := "arrayDims".
Definition arrayStrideKey := "arrayStride".
Definition matrixStrideKey := "matrixStride".
Definition matrixRowMajorKey := "matrixRowMajor".
Definition structMembersKey := "structMembers".
Definition membersKey := "members".
Definition inputsKey := "inputs".
Definition outputsKey := "outputs".
Definition uniformBlocksKey := "uniformBlocks".
Definition blockNameKey := "blockName".
Definition structNameKey := "structName".
Definition instanceNameKey := "instanceName".
Definition sizeKey := "size".
Definition knownSizeKey := "knownSize".
Definition pushConstantBlocksKey := "pushConstantBlocks".
Definition storageBlocksKey := "storageBlocks".
Definition combinedImageSamplersKey := "combinedImageSamplers".
Definition storageImagesKey := "storageImages".

(** [if (c) obj[key] = v;] *)
Definition insertIf (c : bool) (key : string) (v : QJsonValue)
  (obj : QJsonObject) : QJsonObject :=
  if c then insert key v obj else obj.

(** A C++ [int] used as a condition. *)
Definition nonzero (n : Z) : bool := negb (n =? 0).

Definition isEmpty {A : Type} (l : list A) : bool :=
  match l with [] => true | _ => false end.

Definition addDeco (obj : QJsonObject) (v : InOutVariable.t) : QJsonObject :=
  let obj := insertIf (0 <=? InOutVariable.location v)
               locationKey (JDouble (InOutVariable.location v)) obj in
  let obj := insertIf (0 <=? InOutVariable.binding v)
               bindingKey (JDouble (InOutVariable.binding v)) obj in
  let obj := insertIf (0 <=? InOutVariable.descriptorSet v)
               setKey (JDouble (InOutVariable.descriptorSet v)) obj in
  let obj := insertIf
               (bool_decide (InOutVariable.imageFormat v <> ImageFormatUnknown))
               imageFormatKey
               (JString (imageFormatStr (InOutVariable.imageFormat v))) obj in
  let obj := insertIf (nonzero (InOutVariable.imageFlags v))
               imageFlagsKey (JDouble (InOutVariable.imageFlags v)) obj in
  obj.

Definition inOutObject (v : InOutVariable.t) : QJsonObject :=
  let obj := [] in
  let obj := insert nameKey (JString (InOutVariable.name v)) obj in
  let obj := insert typeKey (JString (typeStr (InOutVariable.type v))) obj in
  addDeco obj v.

Fixpoint blockMemberObject (v : BlockVariable.t) : QJsonObject :=
  let obj := [] in
  let obj := insert nameKey (JString (BlockVariable.name v)) obj in
  let obj := insert typeKey (JString (typeStr (BlockVariable.type v))) obj in
  let obj := insert offsetKey (JDouble (BlockVariable.offset v)) obj in
  let obj := insert sizeKey (JDouble (BlockVariable.size v)) obj in
  let obj := insertIf (negb (isEmpty (BlockVariable.arrayDims v)))
               arrayDimsKey
               (JArray (map JDouble (BlockVariable.arrayDims v))) obj in
  let obj := insertIf (nonzero (BlockVariable.arrayStride v))
               arrayStrideKey (JDouble (BlockVariable.arrayStride v)) obj in
  let obj := insertIf (nonzero (BlockVariable.matrixStride v))
               matrixStrideKey (JDouble (BlockVariable.matrixStride v)) obj in
  let obj := insertIf (BlockVariable.matrixIsRowMajor v)
               matrixRowMajorKey (JBool true) obj in
  let obj := insertIf (negb (isEmpty (BlockVariable.structMembers v)))
               structMembersKey
               (JArray (map (fun sv => JObject (blockMemberObject sv))
                          (BlockVariable.structMembers v))) obj in
  obj.

(** The private data of a description: its seven collections. *)
Record QShaderDescriptionPrivate : Set := mkPrivate {
  inVars : list InOutVariable.t;
  outVars : list InOutVariable.t;
  uniformBlocks : list UniformBlock.t;
  pushConstantBlocks : list PushConstantBlock.t;
  storageBlocks : list StorageBlock.t;
  combinedImageSamplers : list InOutVariable.t;
  storageImages : list InOutVariable.t
}.

(** The members array of a block. *)
Definition membersArray (members : list BlockVariable.t) : QJsonValue :=
  JArray (map (fun v => JObject (blockMemberObject v)) members).

Definition uniformBlockObject (b : UniformBlock.t) : QJsonObject :=
  let juniformBlock := [] in
  let juniformBlock :=
    insert blockNameKey (JString (UniformBlock.blockName b)) juniformBlock in
  let juniformBlock :=
    insert structNameKey (JString (UniformBlock.structName b)) juniformBlock in
  let juniformBlock :=
    insert sizeKey (JDouble (UniformBlock.size b)) juniformBlock in
  let juniformBlock :=
    insertIf (0 <=? UniformBlock.binding b)
      bindingKey (JDouble (UniformBlock.binding b)) juniformBlock in
  let juniformBlock :=
    insertIf (0 <=? UniformBlock.descriptorSet b)
      setKey (JDouble (UniformBlock.descriptorSet b)) juniformBlock in
  insert membersKey (membersArray (UniformBlock.members b)) juniformBlock.

Definition pushConstantBlockObject (b : PushConstantBlock.t) : QJsonObject :=
  let jpushConstantBlock := [] in
  let jpushConstantBlock :=
    insert nameKey (JString (PushConstantBlock.name b)) jpushConstantBlock in
  let jpushConstantBlock :=
    insert sizeKey (JDouble (PushConstantBlock.size b)) jpushConstantBlock in
  insert membersKey (membersArray (PushConstantBlock.members b))
    jpushConstantBlock.

Definition storageBlockObject (b : StorageBlock.t) : QJsonObject :=
  let jstorageBlock := [] in
  let jstorageBlock :=
    insert blockNameKey (JString (StorageBlock.blockName b)) jstorageBlock in
  let jstorageBlock :=
    insert instanceNameKey (JString (StorageBlock.instanceName b))
      jstorageBlock in
  let jstorageBlock :=
    insert knownSizeKey (JDouble (StorageBlock.knownSize b)) jstorageBlock in
  let jstorageBlock :=
    insertIf (0 <=? StorageBlock.binding b)
      bindingKey (JDouble (StorageBlock.binding b)) jstorageBlock in
  let jstorageBlock :=
    insertIf (0 <=? StorageBlock.descriptorSet b)
      setKey (JDouble (StorageBlock.descriptorSet b)) jstorageBlock in
  insert membersKey (membersArray (StorageBlock.members b)) jstorageBlock.

(** [QShaderDescriptionPrivate::makeDoc]: every collection becomes an
    array of objects, stored under its root key unless the array is
    empty.  The bodies of the three block loops are the three functions
    above; the sampler and image loops build the same object as
    [inOutObject]. *)
Definition makeDoc (d : QShaderDescriptionPrivate) : QJsonDocument :=
  let root := [] in
  let jinputs := map (fun v => JObject (inOutObject v)) (inVars d) in
  let root := insertIf (negb (isEmpty jinputs)) inputsKey (JArray jinputs) root in
  let joutputs := map (fun v => JObject (inOutObject v)) (outVars d) in
  let root :=
    insertIf (negb (isEmpty joutputs)) outputsKey (JArray joutputs) root in
  let juniformBlocks :=
    map (fun b => JObject (uniformBlockObject b)) (uniformBlocks d) in
  let root :=
    insertIf (negb (isEmpty juniformBlocks))
      uniformBlocksKey (JArray juniformBlocks) root in
  let jpushConstantBlocks :=
    map (fun b => JObject (pushConstantBlockObject b)) (pushConstantBlocks d) in
  let root :=
    insertIf (negb (isEmpty jpushConstantBlocks))
      pushConstantBlocksKey (JArray jpushConstantBlocks) root in
  let jstorageBlocks :=
    map (fun b => JObject (storageBlockObject b)) (storageBlocks d) in
  let root :=
    insertIf (negb (isEmpty jstorageBlocks))
      storageBlocksKey (JArray jstorageBlocks) root in
  let jcombinedSamplers :=
    map (fun v =>
           let sampler := [] in
           let sampler :=
             insert nameKey (JString (InOutVariable.name v)) sampler in
           let sampler :=
             insert typeKey (JString (typeStr (InOutVariable.type v)))
               sampler in
           JObject (addDeco sampler v))
      (combinedImageSamplers d) in
  let root :=
    insertIf (negb (isEmpty jcombinedSamplers))
      combinedImageSamplersKey (JArray jcombinedSamplers) root in
  let jstorageImages :=
    map (fun v =>
           let image := [] in
           let image := insert nameKey (JString (InOutVariable.name v)) image in
           let image :=
             insert typeKey (JString (typeStr (InOutVariable.type v))) image in
           JObject (addDeco image v))
      (storageImages d) in
  let root :=
    insertIf (negb (isEmpty jstorageImages))
      storageImagesKey (JArray jstorageImages) root in
  DocObject root.

(** ** Decoding a description

    The decoder reads a key with [obj[key]].  On the local, modifiable
    objects of [loadDoc] that operator first stores a null value under an
    absent key; the value read converts to the same defaults as the
    undefined value, and no key read this way is tested with [contains]
    afterwards, so reading is modelled by [value] throughout. *)

Definition inOutVar (obj : QJsonObject) : InOutVariable.t :=
  let var := InOutVariable.default in
  {| InOutVariable.name := toString (value obj nameKey);
     InOutVariable.type := mapType (toString (value obj typeKey));
     InOutVariable.location :=
       if contains obj locationKey then toInt (value obj locationKey)
       else InOutVariable.location var;
     InOutVariable.binding :=
       if contains obj bindingKey then toInt (value obj bindingKey)
       else InOutVariable.binding var;
     InOutVariable.descriptorSet :=
       if contains obj setKey then toInt (value obj setKey)
       else InOutVariable.descriptorSet var;
     InOutVariable.imageFormat :=
       if contains obj imageFormatKey
       then mapImageFormat (toString (value obj imageFormatKey))
       else InOutVariable.imageFormat var;
     InOutVariable.imageFlags :=
       if contains obj imageFlagsKey then toInt (value obj imageFlagsKey)
       else InOutVariable.imageFlags var |}.

(** The fields of a block member, given its already decoded struct
    members. *)
Definition blockVarFields (obj : QJsonObject)
  (structMembers : list BlockVariable.t) : BlockVariable.t :=
  let var := BlockVariable.default in
  {| BlockVariable.name := toString (value obj nameKey);
     BlockVariable.type := mapType (toString (value obj typeKey));
     BlockVariable.offset := toInt (value obj offsetKey);
     BlockVariable.size := toInt (value obj sizeKey);
     BlockVariable.arrayDims :=
       if contains obj arrayDimsKey
       then BlockVariable.arrayDims var
            ++ map toInt (toArray (value obj arrayDimsKey))
       else BlockVariable.arrayDims var;
     BlockVariable.arrayStride :=
       if contains obj arrayStrideKey then toInt (value obj arrayStrideKey)
       else BlockVariable.arrayStride var;
     BlockVariable.matrixStride :=
       if contains obj matrixStrideKey then toInt (value obj matrixStrideKey)
       else BlockVariable.matrixStride var;
     BlockVariable.matrixIsRowMajor :=
       if contains obj matrixRowMajorKey
       then toBool (value obj matrixRowMajorKey)
       else BlockVariable.matrixIsRowMajor var;
     BlockVariable.structMembers := structMembers |}.

(** [blockVar], by recursion on the value that holds the object: the
    struct members are the elements of [obj[structMembersKey].toArray()],
    each converted with [toObject] and decoded by the same routine.  A
    value that is no object converts to the empty object; an absent key
    reads as the undefined value, whose array is empty, as is the list of
    a default-constructed member. *)
Fixpoint blockVarOfValue (jv : QJsonValue) : BlockVariable.t :=
  match jv with
  | JObject obj =>
      blockVarFields obj
        (valueWith
           (fun arr =>
              match arr with
              | JArray a => map blockVarOfValue a
              | _ => []
              end)
           structMembersKey obj)
  | _ => blockVarFields [] []
  end.

Definition blockVar (obj : QJsonObject) : BlockVariable.t :=
  blockVarOfValue (JObject obj).

Definition uniformBlockOfObject (ubObj : QJsonObject) : UniformBlock.t :=
  let ub := UniformBlock.default in
  {| UniformBlock.blockName := toString (value ubObj blockNameKey);
     UniformBlock.structName := toString (value ubObj structNameKey);
     UniformBlock.size := toInt (value ubObj sizeKey);
     UniformBlock.binding :=
       if contains ubObj bindingKey then toInt (value ubObj bindingKey)
       else UniformBlock.binding ub;
     UniformBlock.descriptorSet :=
       if contains ubObj setKey then toInt (value ubObj setKey)
       else UniformBlock.descriptorSet ub;
     UniformBlock.members :=
       UniformBlock.members ub
       ++ map (fun member => blockVar (toObject member))
            (toArray (value ubObj membersKey)) |}.

Definition pushConstantBlockOfObject (pcObj : QJsonObject)
  : PushConstantBlock.t :=
  let pc := PushConstantBlock.default in
  {| PushConstantBlock.name := toString (value pcObj nameKey);
     PushConstantBlock.size := toInt (value pcObj sizeKey);
     PushConstantBlock.members :=
       PushConstantBlock.members pc
       ++ map (fun member => blockVar (toObject member))
            (toArray (value pcObj membersKey)) |}.

Definition storageBlockOfObject (sbObj : QJsonObject) : StorageBlock.t :=
  let sb := StorageBlock.default in
  {| StorageBlock.blockName := toString (value sbObj blockNameKey);
     StorageBlock.instanceName := toString (value sbObj instanceNameKey);
     StorageBlock.knownSize := toInt (value sbObj knownSizeKey);
     StorageBlock.binding :=
       if contains sbObj bindingKey then toInt (value sbObj bindingKey)
       else StorageBlock.binding sb;
     StorageBlock.descriptorSet :=
       if contains sbObj setKey then toInt (value sbObj setKey)
       else StorageBlock.descriptorSet sb;
     StorageBlock.members :=
       StorageBlock.members sb
       ++ map (fun member => blockVar (toObject member))
            (toArray (value sbObj membersKey)) |}.

(** A freshly constructed private object. *)
Definition emptyPrivate : QShaderDescriptionPrivate :=
  mkPrivate [] [] [] [] [] [] [].

(** [if (root.contains(key)) for (x : root[key].toArray()) coll.append(f x)],
    run on a collection that was just cleared. *)
Definition loadArray {A : Type} (root : QJsonObject) (key : string)
  (f : QJsonObject -> A) : list A :=
  if contains root key
  then map (fun x => f (toObject x)) (toArray (value root key))
  else [].

(** Messages written with [qWarning]. *)
Definition emptyDocumentWarning : string :=
  "QShaderDescription: JSON document is empty".

(** [QShaderDescriptionPrivate::loadDoc], returning the private data
    together with the warnings it logged.  A null document leaves the
    data as it was.  The source asserts that the private object is not
    shared; sharing is not part of this model, every description owning
    its data. *)
Definition loadDoc (doc : QJsonDocument) (d : QShaderDescriptionPrivate)
  : QShaderDescriptionPrivate * list string :=
  if isNull doc then (d, [emptyDocumentWarning])
  else
    let root := object doc in
    ({| inVars := loadArray root inputsKey inOutVar;
        outVars := loadArray root outputsKey inOutVar;
        uniformBlocks := loadArray root uniformBlocksKey uniformBlockOfObject;
        pushConstantBlocks :=
          loadArray root pushConstantBlocksKey pushConstantBlockOfObject;
        storageBlocks := loadArray root storageBlocksKey storageBlockOfObject;
        combinedImageSamplers :=
          loadArray root combinedImageSamplersKey inOutVar;
        storageImages := loadArray root storageImagesKey inOutVar |}, []).

(** [QShaderDescription::isValid]. *)
Definition isValid (d : QShaderDescriptionPrivate) : bool :=
  negb (isEmpty (inVars d)) || negb (isEmpty (outVars d))
  || negb (isEmpty (uniformBlocks d))
  || negb (isEmpty (pushConstantBlocks d))
  || negb (isEmpty (storageBlocks d))
  || negb (isEmpty (combinedImageSamplers d))
  || negb (isEmpty (storageImages d)).

(** *** The binary form

    The binary layout of a document is produced and parsed by the core
    library; the description only composes it with [makeDoc] and
    [loadDoc].  It is a parameter here: a type of byte arrays with the
    two conversions.  The parser answers the null document on data it
    does not accept. *)
Class BinaryJson : Type := {
  QByteArray : Type;
  toBinaryData : QJsonDocument -> QByteArray;
  fromBinaryData : QByteArray -> QJsonDocument
}.

(** What the core library promises of the two conversions: a document
    that is not null is read back from its own binary data. *)
Definition BinaryJsonRoundTrip (B : BinaryJson) : Prop :=
  forall doc, isNull doc = false -> fromBinaryData (toBinaryData doc) = doc.

Section Binary.
Context {B : BinaryJson}.

Definition toBinaryJson (d : QShaderDescriptionPrivate) : QByteArray :=
    toBinaryData (makeDoc d).

Definition fromBinaryJson (data : QByteArray)
    : QShaderDescriptionPrivate * list string :=
    let desc := emptyPrivate in
    loadDoc (fromBinaryData data) desc.
End Binary.

(** ** Descriptions the document can carry

    A decoration (location, binding, descriptor set) is the absence
    sentinel -1 or a non-negative [int]. *)
Definition isDecoration (n : Z) : bool := (-1 <=? n) && (n <=? INT_MAX).

Definition inOutVarOk (v : InOutVariable.t) : bool :=
  isDecoration (InOutVariable.location v)
  && isDecoration (InOutVariable.binding v)
  && isDecoration (InOutVariable.descriptorSet v)
  && bool_decide (InOutVariable.imageFormat v <> ImageFormatRgba16)
  && is_int (InOutVariable.imageFlags v).

Fixpoint blockVariableOk (v : BlockVariable.t) : bool :=
  is_int (BlockVariable.offset v)
  && is_int (BlockVariable.size v)
  && forallb is_int (BlockVariable.arrayDims v)
  && is_int (BlockVariable.arrayStride v)
  && is_int (BlockVariable.matrixStride v)
  && forallb blockVariableOk (BlockVariable.structMembers v).

Definition uniformBlockOk (b : UniformBlock.t) : bool :=
  is_int (UniformBlock.size b)
  && isDecoration (UniformBlock.binding b)
  && isDecoration (UniformBlock.descriptorSet b)
  && forallb blockVariableOk (UniformBlock.members b).

Definition pushConstantBlockOk (b : PushConstantBlock.t) : bool :=
  is_int (PushConstantBlock.size b)
  && forallb blockVariableOk (PushConstantBlock.members b).

Definition storageBlockOk (b : StorageBlock.t) : bool :=
  is_int (StorageBlock.knownSize b)
  && isDecoration (StorageBlock.binding b)
  && isDecoration (StorageBlock.descriptorSet b)
  && forallb blockVariableOk (StorageBlock.members b).

(** The descriptions whose every number is a C++ [int], whose
    decorations are -1 or non-negative, and whose variables do not use
    the image format [ImageFormatRgba16]. *)
Definition descriptionOk (d : QShaderDescriptionPrivate) : bool :=
  forallb inOutVarOk (inVars d)
  && forallb inOutVarOk (outVars d)
  && forallb uniformBlockOk (uniformBlocks d)
  && forallb pushConstantBlockOk (pushConstantBlocks d)
  && forallb storageBlockOk (storageBlocks d)
  && forallb inOutVarOk (combinedImageSamplers d)
  && forallb inOutVarOk (storageImages d).

(** Whether a token is the key of some entry of a table. *)
Definition hasToken {E : Set} (tab : list (string * E)) (t : string) : bool :=
  existsb (fun kv => String.eqb (fst kv) t) tab.

(** The simplest binary form: the data is the document itself.  It shows
    that the promise [BinaryJsonRoundTrip] can be kept and serves to run
    the conversions on concrete descriptions. *)
Definition documentAsData : BinaryJson :=
  {| QByteArray := QJsonDocument;
     toBinaryData := fun doc => doc;
     fromBinaryData := fun data => data |}.

(** The description of the vertex shader of the class documentation: an
    input [color] and the uniform block [buf] with a matrix and a float. *)
Definition exampleDescription : QShaderDescriptionPrivate :=
  {| inVars :=
       [ {| InOutVariable.name := "color"; InOutVariable.type := Vec3;
            InOutVariable.location := 1; InOutVariable.binding := -1;
            InOutVariable.descriptorSet := -1;
            InOutVariable.imageFormat := ImageFormatUnknown;
            InOutVariable.imageFlags := 0 |} ];
     outVars := [];
     uniformBlocks :=
       [ {| UniformBlock.blockName := "buf";
            UniformBlock.structName := "ubuf";
            UniformBlock.size := 68;
            UniformBlock.binding := 0;
            UniformBlock.descriptorSet := 0;
            UniformBlock.members :=
              [ {| BlockVariable.name := "mvp"; BlockVariable.type := Mat4;
                   BlockVariable.offset := 0; BlockVariable.size := 64;
                   BlockVariable.arrayDims := [];
                   BlockVariable.arrayStride := 0;
                   BlockVariable.matrixStride := 16;
                   BlockVariable.matrixIsRowMajor := false;
                   BlockVariable.structMembers := [] |};
                {| BlockVariable.name := "opacity";
                   BlockVariable.type := Float;
                   BlockVariable.offset := 64; BlockVariable.size := 4;
                   BlockVariable.arrayDims := [];
                   BlockVariable.arrayStride := 0;
                   BlockVariable.matrixStride := 0;
                   BlockVariable.matrixIsRowMajor := false;
                   BlockVariable.structMembers := [] |} ] |} ];
     pushConstantBlocks := [];
     storageBlocks := [];
     combinedImageSamplers := [];
     storageImages := [] |}.

(** A description with one input whose location is below the sentinel. *)
Definition belowSentinelDescription : QShaderDescriptionPrivate :=
  {| inVars :=
       [ {| InOutVariable.name := "v"; InOutVariable.type := Vec4;
            InOutVariable.location := -2; InOutVariable.binding := -1;
            InOutVariable.descriptorSet := -1;
            InOutVariable.imageFormat := ImageFormatUnknown;
            InOutVariable.imageFlags := 0 |} ];
     outVars := []; uniformBlocks := []; pushConstantBlocks := [];
     storageBlocks := []; combinedImageSamplers := []; storageImages := [] |}.

(** A description with one storage image of format [ImageFormatRgba16]. *)
Definition rgba16ImageDescription : QShaderDescriptionPrivate :=
  {| inVars := []; outVars := []; uniformBlocks := [];
     pushConstantBlocks := []; storageBlocks := [];
     combinedImageSamplers := [];
     storageImages :=
       [ {| InOutVariable.name := "img"; InOutVariable.type := Image2D;
            InOutVariable.location := -1; InOutVariable.binding := 0;
            InOutVariable.descriptorSet := 0;
            InOutVariable.imageFormat := ImageFormatRgba16;
            InOutVariable.imageFlags := 0 |} ] |}.

(** ** The Null backend

    Objects of the backend live at addresses; the world holds the objects
    that the modelled functions reach through pointers. *)

Abbreviation Ptr := nat.

(** Modelled from the spec: [QSize] belongs to the core library and is
    not part of these sources.  A size is a width and a height; the
    default-constructed size is invalid (-1 by -1) and a size is empty
    when either extent is below one. *)
Module QSize.
Record t : Set := mk { width : Z; height : Z }.
Definition invalid : t := mk (-1) (-1).
Definition isEmpty (s : t) : bool := (width s <? 1) || (height s <? 1).
End QSize.

(** Modelled from the spec: the declarations of the device interface are
    in a header that is not part of these sources.  A frame operation
    returns a result that tells success from a recoverable failure. *)
Module QRhi.
Inductive FrameOpResult : Set :=
  | FrameOpSuccess
  | FrameOpError
  | FrameOpSwapChainOutOfDate
  | FrameOpDeviceLost.
End QRhi.

(** Modelled from the spec: the texture formats are declared in the same
    missing header.  The backend names [UnknownFormat] and [RGBA8]; the
    formats and the number of bytes of one texel are a parameter. *)
Class TextureFormats : Type := {
  Format : Set;
  UnknownFormat : Format;
  RGBA8 : Format;
  bytesPerTexel : Format -> Z
}.

(** The smallest instance: the two formats the backend names, with four
    bytes for a texel of [RGBA8]. *)
Inductive BasicFormat : Set := BasicUnknownFormat | BasicRGBA8.

Definition basicFormats : TextureFormats :=
  {| Format := BasicFormat;
     UnknownFormat := BasicUnknownFormat;
     RGBA8 := BasicRGBA8;
     bytesPerTexel := fun f =>
       match f with BasicUnknownFormat => 0 | BasicRGBA8 => 4 end |}.

(** *** The profiling sink

    Modelled from the spec: the profiling macros are defined in a missing
    header.  An event is forwarded to the sink when the device has one;
    the sink is the list of the events it received, the latest first. *)
Inductive ProfilerEvent : Set :=
| newBuffer (this : Ptr) (size : Z) (backingGpuBufCount backingCpuBufCount : Z)
| releaseBuffer (this : Ptr)
| newRenderBuffer (this : Ptr) (transientBacking winSysBacking : bool)
    (sampleCount : Z)
| releaseRenderBuffer (this : Ptr)
| newTexture (this : Ptr) (owns : bool)
    (mipCount layerCount sampleCount : Z)
| releaseTexture (this : Ptr)
| resizeSwapChain (this : Ptr) (bufferCount msaaBufferCount sampleCount : Z)
| releaseSwapChain (this : Ptr)
| beginSwapChainFrame (swapChain : Ptr)
| endSwapChainFrame (swapChain : Ptr) (frameCount : Z)
| swapChainFrameGpuTime (swapChain : Ptr).

Definition Profiler : Set := option (list ProfilerEvent).

Definition QRHI_PROF_F (e : ProfilerEvent) (rhiP : Profiler) : Profiler :=
  match rhiP with
  | Some events => Some (e :: events)
  | None => None
  end.

(** Flags are the integer of a [QFlags]; [testFlag] is its test. *)
Definition testFlag (flags flag : Z) : bool :=
  (Z.land flags flag =? flag) && (negb (flag =? 0) || (flags =? flag)).

(** *** Resources

    Modelled from the spec: the resource classes are declared in missing
    headers; each record holds the construction parameters of its factory
    call and the data the backend keeps.  An enumerator of a missing
    enumeration is its integer value. *)

Module QNullBuffer.
Record t : Set := mk { m_type : Z; m_usage : Z; m_size : Z }.

Definition build (this : Ptr) (self : t) (rhiP : Profiler)
    : bool * Profiler :=
    (true, QRHI_PROF_F (newBuffer this (m_size self) 1 0) rhiP).

Definition release (this : Ptr) (self : t) (rhiP : Profiler) : Profiler :=
    QRHI_PROF_F (releaseBuffer this) rhiP.
End QNullBuffer.

Module QNullRenderBuffer.
Record t : Set := mk {
    m_type : Z; m_pixelSize : QSize.t; m_sampleCount : Z; m_flags : Z
  }.

Definition build (this : Ptr) (self : t) (rhiP : Profiler)
    : bool * Profiler :=
    (true, QRHI_PROF_F (newRenderBuffer this false false 1) rhiP).

Definition release (this : Ptr) (self : t) (rhiP : Profiler) : Profiler :=
    QRHI_PROF_F (releaseRenderBuffer this) rhiP.
End QNullRenderBuffer.

Module QNullTexture.
Section WithFormats.
Context {F : TextureFormats}.

Record t : Type := mk {
      m_format : Format; m_pixelSize : QSize.t; m_sampleCount : Z; m_flags : Z
    }.

    (** The two flags the backend tests; their bits are declared in the
        missing header. *)
Context (CubeMap MipMapped : Z).

    (** [qCeil(log2(n))] of an integer [n >= 1]. *)
Definition ceilLog2 (n : Z) : Z := Z.log2_up n.

Definition mipLevelCount (self : t) : Z :=
      let hasMipMaps := testFlag (m_flags self) MipMapped in
      let size :=
        if QSize.isEmpty (m_pixelSize self) then QSize.mk 1 1
        else m_pixelSize self in
      if hasMipMaps
      then ceilLog2 (Z.max (QSize.width size) (QSize.height size)) + 1
      else 1.

Definition build (this : Ptr) (self : t) (rhiP : Profiler)
      : bool * Profiler :=
      let isCube := testFlag (m_flags self) CubeMap in
      (true,
       QRHI_PROF_F
         (newTexture this true (mipLevelCount self) (if isCube then 6 else 1) 1)
         rhiP).

Definition buildFrom (this : Ptr) (self : t) (rhiP : Profiler)
      : bool * Profiler :=
      let isCube := testFlag (m_flags self) CubeMap in
      (true,
       QRHI_PROF_F
         (newTexture this false (mipLevelCount self) (if isCube then 6 else 1)
            1)
         rhiP).

Definition release (this : Ptr) (self : t) (rhiP : Profiler) : Profiler :=
      QRHI_PROF_F (releaseTexture this) rhiP.
End WithFormats.
End QNullTexture.

Module QNullSampler.
Record t : Set := mk {
    m_magFilter : Z; m_minFilter : Z; m_mipmapMode : Z;
    m_addressU : Z; m_addressV : Z
  }.
Definition build (self : t) : bool := true.
End QNullSampler.

Module QNullShaderResourceBindings.
Record t : Set := mk { m_bindings : list Z }.
Definition build (self : t) : bool := true.
End QNullShaderResourceBindings.

Module QNullGraphicsPipeline.
Record t : Set := mk { m_flags : Z; m_shaderResourceBindings : option Ptr }.
Definition build (self : t) : bool := true.
End QNullGraphicsPipeline.

Module QNullComputePipeline.
Record t : Set := mk { m_shaderResourceBindings : option Ptr }.
Definition build (self : t) : bool := true.
End QNullComputePipeline.

(** The data of a render target: its render pass descriptor and its
    pixel size.  (The device pixel ratio, a float, is left out.) *)
Module QNullRenderTargetData.
Record t : Set := mk { rp : option Ptr; pixelSize : QSize.t }.
Definition initial : t := mk None QSize.invalid.
End QNullRenderTargetData.

Module QRhiColorAttachment.
Record t : Set := mk { texture : option Ptr; renderBuffer : option Ptr }.
End QRhiColorAttachment.

Module QRhiTextureRenderTargetDescription.
Record t : Set := mk {
    colorAttachments : list QRhiColorAttachment.t;
    depthStencilBuffer : option Ptr;
    depthTexture : option Ptr
  }.
End QRhiTextureRenderTargetDescription.

(** The swapchain with the render target it owns.  The frame counter is
    declared in the missing header; it is an integer here, without a
    width. *)
Module QNullSwapChain.
Record t : Set := mk {
    m_currentPixelSize : QSize.t;
    m_renderPassDesc : option Ptr;
    rt : QNullRenderTargetData.t;
    frameCount : Z
  }.

  (** A swapchain as constructed by [createSwapChain]. *)
Definition initial : t :=
    mk QSize.invalid None QNullRenderTargetData.initial 0.

Definition surfacePixelSize (self : t) : QSize.t := QSize.mk 1280 720.

Definition currentPixelSize (self : t) : QSize.t := m_currentPixelSize self.

Definition buildOrResize (this : Ptr) (self : t) (rhiP : Profiler)
    : bool * t * Profiler :=
    let m_currentPixelSize' := surfacePixelSize self in
    let rt' :=
      QNullRenderTargetData.mk (m_renderPassDesc self) m_currentPixelSize' in
    (true,
     mk m_currentPixelSize' (m_renderPassDesc self) rt' 0,
     QRHI_PROF_F (resizeSwapChain this 1 0 1) rhiP).

Definition release (this : Ptr) (self : t) (rhiP : Profiler) : Profiler :=
    QRHI_PROF_F (releaseSwapChain this) rhiP.
End QNullSwapChain.

(** *** Readbacks

    Modelled from the spec: the readback description, the readback result
    and the texture operations of an update batch are declared in a
    missing header.  A description names a texture (or none, to read the
    swapchain) and a mip level; a result receives the format, the pixel
    size and the payload, and may carry a completion callback. *)
Module QRhiReadbackDescription.
Record t : Set := mk { texture : option Ptr; layer : Z; level : Z }.
End QRhiReadbackDescription.

Module QRhiReadbackResult.
Section WithFormats.
Context {F : TextureFormats}.
Record t : Type := mk {
      completed : bool;
      format : Format;
      pixelSize : QSize.t;
      data : list Byte.byte
    }.
End WithFormats.
End QRhiReadbackResult.

(** A texture operation of a batch: a read, or one of the operations
    the backend skips. *)
Inductive TextureOp : Set :=
| Read (rb : QRhiReadbackDescription.t) (result : Ptr)
| Upload
| Copy
| MipGen.

(** Modelled from the spec: [sizeForMipLevel] is a function of the
    device front end, missing from these sources: the width and the
    height taken at the requested mip level, each level halving the
    extent down to one texel. *)
Definition sizeForMipLevel (mipLevel : Z) (baseLevelSize : QSize.t) : QSize.t :=
  QSize.mk (Z.max 1 (Z.shiftr (QSize.width baseLevelSize) mipLevel))
           (Z.max 1 (Z.shiftr (QSize.height baseLevelSize) mipLevel)).

(** Modelled from the spec: [textureFormatInfo] is a function of the
    device implementation, missing from these sources: the byte size of
    an image is width x height x bytes per texel of the format.  The
    caller receives it in a [quint32], hence modulo 2^32. *)
Definition textureFormatInfo {F : TextureFormats} (format : Format)
  (size : QSize.t) : Z :=
  (QSize.width size * QSize.height size * bytesPerTexel format) mod 2 ^ 32.

(** A [quint32] passed where an [int] is expected. *)
Definition intOfQuint32 (n : Z) : Z := if n <? 2 ^ 31 then n else n - 2 ^ 32.

(** Modelled from the spec: [QByteArray::fill(ch, size)] of the core
    library sets every byte to [ch] after resizing the array to [size],
    unless [size] is negative, when the length is kept. *)
Definition fill (ch : Byte.byte) (size : Z) (data : list Byte.byte)
  : list Byte.byte :=
  if size <? 0 then repeat ch (length data) else repeat ch (Z.to_nat size).

(** *** The world: the device and the objects it reaches *)

Section World.
Context {F : TextureFormats}.

Record World : Type := mkWorld {
    textures : gmap nat QNullTexture.t;
    renderBuffers : gmap nat QNullRenderBuffer.t;
    swapChains : gmap nat QNullSwapChain.t;
    readbackResults : gmap nat QRhiReadbackResult.t;
    (** the results whose completion callback was called, latest first *)
    completedCalls : list Ptr;
    (** members of the device *)
    currentSwapChain : option Ptr;
    rhiP : Profiler
  }.

Definition setSwapChains (m : gmap nat QNullSwapChain.t) (w : World) : World :=
    mkWorld (textures w) (renderBuffers w) m (readbackResults w)
      (completedCalls w) (currentSwapChain w) (rhiP w).

Definition setReadbackResults (m : gmap nat QRhiReadbackResult.t)
    (w : World) : World :=
    mkWorld (textures w) (renderBuffers w) (swapChains w) m
      (completedCalls w) (currentSwapChain w) (rhiP w).

Definition setCompletedCalls (l : list Ptr) (w : World) : World :=
    mkWorld (textures w) (renderBuffers w) (swapChains w) (readbackResults w)
      l (currentSwapChain w) (rhiP w).

Definition setCurrentSwapChain (p : option Ptr) (w : World) : World :=
    mkWorld (textures w) (renderBuffers w) (swapChains w) (readbackResults w)
      (completedCalls w) p (rhiP w).

Definition setRhiP (p : Profiler) (w : World) : World :=
    mkWorld (textures w) (renderBuffers w) (swapChains w) (readbackResults w)
      (completedCalls w) (currentSwapChain w) p.

  (** A world without objects, with or without a profiling sink. *)
Definition emptyWorld (rhiP : Profiler) : World :=
    mkWorld ∅ ∅ ∅ ∅ [] None rhiP.

  (** **** Frames

      A function that goes through a pointer has no result ([None]) when
      the pointer does not refer to a live object, or when an assertion
      of the source fails. *)

Definition beginFrame (swapChain : Ptr) (w : World)
    : QRhi.FrameOpResult * World :=
    let w := setCurrentSwapChain (Some swapChain) w in
    let w := setRhiP (QRHI_PROF_F (beginSwapChainFrame swapChain) (rhiP w)) w in
    (QRhi.FrameOpSuccess, w).

Definition endFrame (swapChain : Ptr) (w : World)
    : option (QRhi.FrameOpResult * World) :=
    swapChainD ← swapChains w !! swapChain;
    let w :=
      setRhiP
        (QRHI_PROF_F
           (endSwapChainFrame swapChain
              (QNullSwapChain.frameCount swapChainD + 1)) (rhiP w)) w in
    let w := setRhiP (QRHI_PROF_F (swapChainFrameGpuTime swapChain) (rhiP w)) w in
    let swapChainD :=
      QNullSwapChain.mk (QNullSwapChain.m_currentPixelSize swapChainD)
        (QNullSwapChain.m_renderPassDesc swapChainD)
        (QNullSwapChain.rt swapChainD)
        (QNullSwapChain.frameCount swapChainD + 1) in
    let w := setSwapChains (<[swapChain := swapChainD]> (swapChains w)) w in
    let w := setCurrentSwapChain None w in
    Some (QRhi.FrameOpSuccess, w).

  (** The command buffer handed out for a frame. *)
Inductive CommandBuffer : Set :=
  | offscreenCommandBuffer
  | swapChainCommandBuffer (swapChain : Ptr).

Definition beginOffscreenFrame (w : World)
    : QRhi.FrameOpResult * CommandBuffer * World :=
    (QRhi.FrameOpSuccess, offscreenCommandBuffer, w).

Definition endOffscreenFrame (w : World) : QRhi.FrameOpResult * World :=
    (QRhi.FrameOpSuccess, w).

Definition finish (w : World) : QRhi.FrameOpResult * World :=
    (QRhi.FrameOpSuccess, w).

  (** [QNullSwapChain::buildOrResize] on the swapchain at an address. *)
Definition swapChainBuildOrResize (swapChain : Ptr) (w : World)
    : option (bool * World) :=
    self ← swapChains w !! swapChain;
    let '(ok, self, p) :=
      QNullSwapChain.buildOrResize swapChain self (rhiP w) in
    Some (ok, setRhiP p (setSwapChains (<[swapChain := self]> (swapChains w)) w)).

  (** **** Resource updates *)

  (** The format and the pixel size a read reports: those of the
      texture at the requested mip level, or [RGBA8] and the current
      size of the current swapchain, which the source asserts to be set. *)
Definition readbackSource (rb : QRhiReadbackDescription.t) (w : World)
    : option (Format * QSize.t) :=
    match QRhiReadbackDescription.texture rb with
    | Some texP =>
        tex ← textures w !! texP;
        Some (QNullTexture.m_format tex,
              sizeForMipLevel (QRhiReadbackDescription.level rb)
                (QNullTexture.m_pixelSize tex))
    | None =>
        swapChainP ← currentSwapChain w;
        swapChainD ← swapChains w !! swapChainP;
        Some (RGBA8, QNullSwapChain.currentPixelSize swapChainD)
    end.

  (** The body of the loop of [resourceUpdate] for one operation. *)
Definition textureOp (u : TextureOp) (w : World) : option World :=
    match u with
    | Read rb resultP =>
        result ← readbackResults w !! resultP;
        '(format, pixelSize) ← readbackSource rb w;
        let byteSize := textureFormatInfo format pixelSize in
        let data :=
          fill Byte.x00 (intOfQuint32 byteSize)
            (QRhiReadbackResult.data result) in
        let result' :=
          QRhiReadbackResult.mk (QRhiReadbackResult.completed result)
            format pixelSize data in
        let w := setReadbackResults (<[resultP := result']> (readbackResults w)) w in
        Some (if QRhiReadbackResult.completed result
              then setCompletedCalls (resultP :: completedCalls w) w
              else w)
    | _ => Some w
    end.

  (** [QRhiNull::resourceUpdate] on the texture operations of a batch.
      (Releasing the batch afterwards is not modelled.) *)
Fixpoint resourceUpdate (textureOps : list TextureOp) (w : World)
    : option World :=
    match textureOps with
    | [] => Some w
    | u :: rest => w ← textureOp u w; resourceUpdate rest w
    end.

  (** **** Recording

      The recording functions of the device, with the arguments they
      ignore left out; a pass boundary may carry a batch of updates. *)
Inductive Command : Set :=
  | setGraphicsPipeline | setShaderResources | setVertexInput
  | setViewport | setScissor | setBlendConstants | setStencilRef
  | draw | drawIndexed
  | debugMarkBegin | debugMarkEnd | debugMarkMsg
  | setComputePipeline | dispatch
  | beginExternal | endExternal
  | beginPass (resourceUpdates : option (list TextureOp))
  | endPass (resourceUpdates : option (list TextureOp))
  | beginComputePass (resourceUpdates : option (list TextureOp))
  | endComputePass (resourceUpdates : option (list TextureOp)).

Definition record (c : Command) (w : World) : option World :=
    match c with
    | beginPass (Some resourceUpdates)
    | endPass (Some resourceUpdates)
    | beginComputePass (Some resourceUpdates)
    | endComputePass (Some resourceUpdates) => resourceUpdate resourceUpdates w
    | _ => Some w
    end.

Fixpoint recordAll (cs : list Command) (w : World) : option World :=
    match cs with
    | [] => Some w
    | c :: rest => w ← record c w; recordAll rest w
    end.

  (** One frame on a swapchain: [beginFrame], the recorded commands,
      [endFrame]; the two results and the world afterwards. *)
Definition frame (swapChain : Ptr) (cs : list Command) (w : World)
    : option (QRhi.FrameOpResult * QRhi.FrameOpResult * World) :=
    let '(r1, w) := beginFrame swapChain w in
    w ← recordAll cs w;
    '(r2, w) ← endFrame swapChain w;
    Some (r1, r2, w).

  (** **** Building resources *)

  (** [QNullTextureRenderTarget::build]: the pixel size comes from the
      first color attachment (its texture, else its render buffer), else
      from the depth-stencil buffer, else from the depth texture. *)
Record QNullTextureRenderTarget : Set := mkTextureRenderTarget {
    m_desc : QRhiTextureRenderTargetDescription.t;
    m_flags : Z;
    m_renderPassDesc : option Ptr;
    d : QNullRenderTargetData.t
  }.

Definition texturePixelSize (w : World) (tex : Ptr) : option QSize.t :=
    QNullTexture.m_pixelSize <$> textures w !! tex.

Definition renderBufferPixelSize (w : World) (rb : Ptr) : option QSize.t :=
    QNullRenderBuffer.m_pixelSize <$> renderBuffers w !! rb.

Definition textureRenderTargetBuild (self : QNullTextureRenderTarget)
    (w : World) : option (bool * QNullTextureRenderTarget) :=
    let rp := m_renderPassDesc self in
    let desc := m_desc self in
    pixelSize ←
      match QRhiTextureRenderTargetDescription.colorAttachments desc with
      | first :: _ =>
          match QRhiColorAttachment.texture first with
          | Some tex => texturePixelSize w tex
          | None =>
              rb ← QRhiColorAttachment.renderBuffer first;
              renderBufferPixelSize w rb
          end
      | [] =>
          match QRhiTextureRenderTargetDescription.depthStencilBuffer desc with
          | Some rb => renderBufferPixelSize w rb
          | None =>
              match QRhiTextureRenderTargetDescription.depthTexture desc with
              | Some tex => texturePixelSize w tex
              | None => Some (QNullRenderTargetData.pixelSize (d self))
              end
          end
      end;
    Some (true,
          mkTextureRenderTarget desc (m_flags self) rp
            (QNullRenderTargetData.mk rp pixelSize)).

  (** The pointers that [textureRenderTargetBuild] follows refer to live
      objects. *)
Definition attachmentsLive (self : QNullTextureRenderTarget) (w : World)
    : bool :=
    let desc := m_desc self in
    match QRhiTextureRenderTargetDescription.colorAttachments desc with
    | first :: _ =>
        match QRhiColorAttachment.texture first with
        | Some tex => bool_decide (is_Some (textures w !! tex))
        | None =>
            match QRhiColorAttachment.renderBuffer first with
            | Some rb => bool_decide (is_Some (renderBuffers w !! rb))
            | None => false
            end
        end
    | [] =>
        match QRhiTextureRenderTargetDescription.depthStencilBuffer desc with
        | Some rb => bool_decide (is_Some (renderBuffers w !! rb))
        | None =>
            match QRhiTextureRenderTargetDescription.depthTexture desc with
            | Some tex => bool_decide (is_Some (textures w !! tex))
            | None => true
            end
        end
    end.

  (** The resources the factory functions of the device create, each
      with its construction parameters. *)
Inductive Resource : Type :=
  | Buffer (b : QNullBuffer.t)
  | RenderBuffer (rb : QNullRenderBuffer.t)
  | Texture (tex : QNullTexture.t)
  | Sampler (s : QNullSampler.t)
  | TextureRenderTarget (rt : QNullTextureRenderTarget)
  | ShaderResourceBindings (srb : QNullShaderResourceBindings.t)
  | GraphicsPipeline (ps : QNullGraphicsPipeline.t)
  | ComputePipeline (ps : QNullComputePipeline.t)
  | SwapChain (sc : QNullSwapChain.t).

  (** The flags of a texture that its [build] tests. *)
Context (CubeMap MipMapped : Z).

  (** [build()] of the resource at address [this] ([buildOrResize()] for
      a swapchain): its result, the resource and the sink afterwards. *)
Definition build (this : Ptr) (r : Resource) (w : World)
    : option (bool * Resource * Profiler) :=
    match r with
    | Buffer b =>
        let '(ok, p) := QNullBuffer.build this b (rhiP w) in
        Some (ok, r, p)
    | RenderBuffer rb =>
        let '(ok, p) := QNullRenderBuffer.build this rb (rhiP w) in
        Some (ok, r, p)
    | Texture tex =>
        let '(ok, p) :=
          QNullTexture.build CubeMap MipMapped this tex (rhiP w) in
        Some (ok, r, p)
    | Sampler s => Some (QNullSampler.build s, r, rhiP w)
    | TextureRenderTarget rt =>
        '(ok, rt) ← textureRenderTargetBuild rt w;
        Some (ok, TextureRenderTarget rt, rhiP w)
    | ShaderResourceBindings srb =>
        Some (QNullShaderResourceBindings.build srb, r, rhiP w)
    | GraphicsPipeline ps => Some (QNullGraphicsPipeline.build ps, r, rhiP w)
    | ComputePipeline ps => Some (QNullComputePipeline.build ps, r, rhiP w)
    | SwapChain sc =>
        let '(ok, sc, p) := QNullSwapChain.buildOrResize this sc (rhiP w) in
        Some (ok, SwapChain sc, p)
    end.

  (** Whether the pointers a resource holds and its [build] follows are
      live; only a texture render target follows any. *)
Definition buildable (r : Resource) (w : World) : bool :=
    match r with
    | TextureRenderTarget rt => attachmentsLive rt w
    | _ => true
    end.
End World.

(** *** Concrete worlds

    Over the formats of [basicFormats]: a 256x256 texture at address 1,
    a swapchain at address 2, a readback result at address 3 and a
    32768x32768 texture at address 4; the device has a profiling sink. *)

Definition exampleTexture : @QNullTexture.t basicFormats :=
  QNullTexture.mk (RGBA8 : @Format basicFormats) (QSize.mk 256 256) 1 0.

Definition largeTexture : @QNullTexture.t basicFormats :=
  QNullTexture.mk (RGBA8 : @Format basicFormats) (QSize.mk 32768 32768) 1 0.

Definition exampleResult : @QRhiReadbackResult.t basicFormats :=
  QRhiReadbackResult.mk true (UnknownFormat : @Format basicFormats)
    QSize.invalid [].

Definition exampleWorld : @World basicFormats :=
  mkWorld
    (<[1%nat := exampleTexture]> (<[4%nat := largeTexture]> ∅))
    ∅
    (<[2%nat := QNullSwapChain.initial]> ∅)
    (<[3%nat := exampleResult]> ∅)
    [] None (Some []).

(** A render target on the texture at address 1. *)
Definition exampleRenderTarget : QNullTextureRenderTarget :=
  mkTextureRenderTarget
    (QRhiTextureRenderTargetDescription.mk
       [QRhiColorAttachment.mk (Some 1%nat) None] None None)
    0 None QNullRenderTargetData.initial.

(** Reads of mip level 4 of the small texture and of level 0 of the
    large one, both into the result at address 3. *)
Definition exampleRead : TextureOp :=
  Read (QRhiReadbackDescription.mk (Some 1%nat) 0 4) 3%nat.

Definition largeRead : TextureOp :=
  Read (QRhiReadbackDescription.mk (Some 4%nat) 0 0) 3%nat.

(** The commands of a frame with one pass, one draw and a readback. *)
Definition exampleCommands : list Command :=
  [beginPass None; setGraphicsPipeline; draw; endPass (Some [exampleRead])].

(** ** Further definitions

    The descriptions whose every number is a C++ [int], with no other
    condition. *)
Definition inOutVarInts (v : InOutVariable.t) : bool :=
  is_int (InOutVariable.location v)
  && is_int (InOutVariable.binding v)
  && is_int (InOutVariable.descriptorSet v)
  && is_int (InOutVariable.imageFlags v).

Definition uniformBlockInts (b : UniformBlock.t) : bool :=
  is_int (UniformBlock.size b)
  && is_int (UniformBlock.binding b)
  && is_int (UniformBlock.descriptorSet b)
  && forallb blockVariableOk (UniformBlock.members b).

Definition storageBlockInts (b : StorageBlock.t) : bool :=
  is_int (StorageBlock.knownSize b)
  && is_int (StorageBlock.binding b)
  && is_int (StorageBlock.descriptorSet b)
  && forallb blockVariableOk (StorageBlock.members b).

Definition descriptionInts (d : QShaderDescriptionPrivate) : bool :=
  forallb inOutVarInts (inVars d)
  && forallb inOutVarInts (outVars d)
  && forallb uniformBlockInts (uniformBlocks d)
  && forallb pushConstantBlockOk (pushConstantBlocks d)
  && forallb storageBlockInts (storageBlocks d)
  && forallb inOutVarInts (combinedImageSamplers d)
  && forallb inOutVarInts (storageImages d).

(** The keys an input/output object and a block member object are made
    of. *)
Definition inOutKeys : list string :=
  [nameKey; typeKey; locationKey; bindingKey; setKey; imageFormatKey;
   imageFlagsKey].

Definition blockMemberKeys : list string :=
  [nameKey; typeKey; offsetKey; sizeKey; arrayDimsKey; arrayStrideKey;
   matrixStrideKey; matrixRowMajorKey; structMembersKey].

(** The seven keys of the root object. *)
Definition rootKeys : list string :=
  [inputsKey; outputsKey; uniformBlocksKey; pushConstantBlocksKey;
   storageBlocksKey; combinedImageSamplersKey; storageImagesKey].

(** The length of the array stored under a key of an object; 0 when the
    key is absent or holds no array. *)
Definition arrayLength (obj : QJsonObject) (key : string) : nat :=
  length (toArray (value obj key)).

(** The root object made of the seven encoded collections, as [makeDoc]
    assembles it. *)
Definition rootOf (jinputs joutputs juniformBlocks jpushConstantBlocks
  jstorageBlocks jcombinedSamplers jstorageImages : QJsonArray) : QJsonObject :=
  let root := [] in
  let root := insertIf (negb (isEmpty jinputs)) inputsKey (JArray jinputs) root in
  let root :=
    insertIf (negb (isEmpty joutputs)) outputsKey (JArray joutputs) root in
  let root :=
    insertIf (negb (isEmpty juniformBlocks))
      uniformBlocksKey (JArray juniformBlocks) root in
  let root :=
    insertIf (negb (isEmpty jpushConstantBlocks))
      pushConstantBlocksKey (JArray jpushConstantBlocks) root in
  let root :=
    insertIf (negb (isEmpty jstorageBlocks))
      storageBlocksKey (JArray jstorageBlocks) root in
  let root :=
    insertIf (negb (isEmpty jcombinedSamplers))
      combinedImageSamplersKey (JArray jcombinedSamplers) root in
  insertIf (negb (isEmpty jstorageImages))
    storageImagesKey (JArray jstorageImages) root.

(** *** More of the Null backend *)

Section WorldMore.
Context {F : TextureFormats}.

(** [QNullTextureRenderTarget::pixelSize]. *)
Definition textureRenderTargetPixelSize (self : QNullTextureRenderTarget)
  : QSize.t :=
  QNullRenderTargetData.pixelSize (d self).

(** Frames in a row on one swapchain, each with its commands. *)
Fixpoint frames (swapChain : Ptr) (css : list (list Command)) (w : World)
  : option World :=
  match css with
  | [] => Some w
  | cs :: rest =>
      '(_, _, w) ← frame swapChain cs w;
      frames swapChain rest w
  end.

Definition isRead (u : TextureOp) : bool :=
  match u with Read _ _ => true | _ => false end.

(** A command that carries no batch with a read. *)
Definition readFree (c : Command) : bool :=
  match c with
  | beginPass (Some resourceUpdates)
  | endPass (Some resourceUpdates)
  | beginComputePass (Some resourceUpdates)
  | endComputePass (Some resourceUpdates) =>
      forallb (fun u => negb (isRead u)) resourceUpdates
  | _ => true
  end.

(** The pointers a texture operation follows refer to live objects: the
    result, and either the texture or the current swapchain. *)
Definition readLive (w : World) (u : TextureOp) : bool :=
  match u with
  | Read rb resultP =>
      bool_decide (is_Some (readbackResults w !! resultP))
      && match QRhiReadbackDescription.texture rb with
         | Some texP => bool_decide (is_Some (textures w !! texP))
         | None =>
             match currentSwapChain w with
             | Some swapChainP =>
                 bool_decide (is_Some (swapChains w !! swapChainP))
             | None => false
             end
         end
  | _ => true
  end.

(** Whether the result at an address carries a completion callback. *)
Definition hasCallback (w : World) (resultP : Ptr) : bool :=
  match readbackResults w !! resultP with
  | Some result => QRhiReadbackResult.completed result
  | None => false
  end.

(** The results of the reads of a batch that carry a callback, in the
    order of the batch. *)
Definition callbacks (w : World) (textureOps : list TextureOp) : list Ptr :=
  flat_map
    (fun u =>
       match u with
       | Read _ resultP => if hasCallback w resultP then [resultP] else []
       | _ => []
       end)
    textureOps.

(** The events a frame on a swapchain forwards to a sink. *)
Definition frameEvents (swapChain : Ptr) (frameCount : Z)
  : list ProfilerEvent :=
  [swapChainFrameGpuTime swapChain;
   endSwapChainFrame swapChain (frameCount + 1);
   beginSwapChainFrame swapChain].
End WorldMore.

(** The commands [Window::customRender] of the compute image example
    records in a frame; each call on the command buffer is the device
    function of the same name.  The batch of the first frame carries the
    upload of the input image, a texture operation; the buffer updates
    are no texture operations. *)
Definition customRender (first : bool) : list Command :=
  [beginComputePass (Some (if first then [Upload] else []));
   setComputePipeline; setShaderResources; dispatch; endComputePass None;
   beginPass None; setGraphicsPipeline; setViewport; setShaderResources;
   setVertexInput; drawIndexed; endPass None].

(** A swapchain read into the result at address 3. *)
Definition swapChainRead : TextureOp :=
  Read (QRhiReadbackDescription.mk None 0 0) 3%nat.

(** The keys the three block objects are made of. *)
Definition uniformBlockKeys : list string :=
  [blockNameKey; structNameKey; sizeKey; bindingKey; setKey; membersKey].

Definition pushConstantBlockKeys : list string :=
  [nameKey; sizeKey; membersKey].

Definition storageBlockKeys : list string :=
  [blockNameKey; instanceNameKey; knownSizeKey; bindingKey; setKey;
   membersKey].

(** An object with values of the wrong kinds under known keys. *)
Definition wrongKindsObject : QJsonObject :=
  [(nameKey, JDouble 1); (typeKey, JBool true);
   (locationKey, JString "1"); (imageFormatKey, JDouble 4);
   (matrixRowMajorKey, JString "true"); (structMembersKey, JString "none")].

(** A render target whose only color attachment names neither a texture
    nor a render buffer, as a default-constructed attachment does. *)
Definition emptyAttachmentRenderTarget : QNullTextureRenderTarget :=
  mkTextureRenderTarget
    (QRhiTextureRenderTargetDescription.mk
       [QRhiColorAttachment.mk None None] None None)
    0 None QNullRenderTargetData.initial.

(** * Properties *)

(** ** Token tables *)

Section LookupFacts.
Context {E : Set} `{EqDecision E}.

Lemma scanByKey_absent (tab : list (string * E)) unknown t :
    t ∉ map fst tab -> scanByKey tab unknown t = unknown.
  Proof.
    induction tab as [|[k v] rest IH]; simpl; intros Hnot; [reflexivity|].
    destruct (String.eqb_spec k t) as [->|Hne].
    - exfalso. apply Hnot. left.
    - apply IH. intros Hin. apply Hnot. now right.
  Qed.

Lemma scanByValue_absent (tab : list (string * E)) t :
    t ∉ map snd tab -> scanByValue tab t = "".
  Proof.
    induction tab as [|[k v] rest IH]; simpl; intros Hnot; [reflexivity|].
    destruct (decide (v = t)) as [->|Hne].
    - exfalso. apply Hnot. left.
    - apply IH. intros Hin. apply Hnot. now right.
  Qed.
End LookupFacts.

(** Every variable type, the unknown one included, is read back from its
    token: the unknown type has no table entry, prints as the empty token,
    and the empty token is no key of the table. *)
Lemma mapType_typeStr t : mapType (typeStr t) = t.
Proof. destruct t; vm_compute; reflexivity. Qed.

(** Every image format but [ImageFormatRgba16] is read back from its
    token. *)
Lemma mapImageFormat_imageFormatStr f :
  f <> ImageFormatRgba16 -> mapImageFormat (imageFormatStr f) = f.
Proof. destruct f; intros Hne; try (vm_compute; reflexivity); congruence. Qed.

(** C2 (the code departs from the claim).  The image format table gives
    the token "rgba16" to two enumerators.  Printing [ImageFormatRgba16]
    finds its own entry, but reading the token back stops at the earlier
    entry of [ImageFormatRgba16f]: the enumerator is not recovered. *)
Theorem imageFormat_rgba16_not_recovered :
  imageFormatStr ImageFormatRgba16 = "rgba16"
  /\ imageFormatStr ImageFormatRgba16f = "rgba16"
  /\ mapImageFormat (imageFormatStr ImageFormatRgba16) = ImageFormatRgba16f
  /\ mapImageFormat (imageFormatStr ImageFormatRgba16) <> ImageFormatRgba16.
Proof. vm_compute. repeat split; congruence. Qed.

(** C3, as the claim has it, fails for the image formats: the unknown
    image format has a table entry of its own and prints as "unknown",
    not as the empty token. *)
Lemma imageFormatStr_unknown_not_empty :
  ~ (typeStr Unknown = "" /\ imageFormatStr ImageFormatUnknown = "").
Proof. vm_compute. intros [_ H]. discriminate H. Qed.

(** ** Objects: reading after writing *)

Lemma valueWith_value {A : Type} (f : QJsonValue -> A) key obj :
  valueWith f key obj = f (value obj key).
Proof.
  induction obj as [|[k v] rest IH]; simpl; [reflexivity|].
  destruct (String.eqb k key); [reflexivity | exact IH].
Qed.

Lemma value_absent obj key : contains obj key = false -> value obj key = JUndefined.
Proof.
  induction obj as [|[k v] rest IH]; simpl; [reflexivity|].
  destruct (String.eqb k key); simpl; [discriminate | exact IH].
Qed.

Lemma value_insert key v obj key' :
  value (insert key v obj) key' =
  if String.eqb key key' then v else value obj key'.
Proof.
  induction obj as [|[k w] rest IH]; simpl.
  - destruct (String.eqb key key'); reflexivity.
  - destruct (String.eqb_spec k key) as [->|Hk]; simpl.
    + destruct (String.eqb key key'); reflexivity.
    + destruct (String.eqb_spec k key') as [->|Hk'].
      * apply String.eqb_neq in Hk. rewrite String.eqb_sym in Hk.
        now rewrite Hk.
      * exact IH.
Qed.

Lemma contains_insert key v obj key' :
  contains (insert key v obj) key' = String.eqb key key' || contains obj key'.
Proof.
  induction obj as [|[k w] rest IH]; simpl.
  - now rewrite orb_false_r.
  - destruct (String.eqb_spec k key) as [->|Hk]; simpl.
    + now destruct (String.eqb key key').
    + rewrite IH. now destruct (String.eqb k key'), (String.eqb key key').
Qed.

Lemma value_insertIf c key v obj key' :
  value (insertIf c key v obj) key' =
  if c && String.eqb key key' then v else value obj key'.
Proof. destruct c; simpl; [apply value_insert | reflexivity]. Qed.

Lemma contains_insertIf c key v obj key' :
  contains (insertIf c key v obj) key' =
  c && String.eqb key key' || contains obj key'.
Proof. destruct c; simpl; [apply contains_insert | reflexivity]. Qed.

(** Comparisons of the fixed keys are evaluated. *)
Ltac eval_keys :=
  repeat match goal with
    | |- context [String.eqb ?a ?b] =>
        let r := eval vm_compute in (String.eqb a b) in
        change (String.eqb a b) with r
    end;
  rewrite ?andb_true_r, ?andb_false_r, ?orb_false_r, ?orb_false_l.

Ltac read_object :=
  repeat first
    [ rewrite value_insertIf | rewrite contains_insertIf
    | rewrite value_insert | rewrite contains_insert ];
  eval_keys; simpl contains; simpl value.

(** ** Values a document can carry *)


Lemma toInt_int n : is_int n = true -> toInt (JDouble n) = n.
Proof. intros H. simpl. now rewrite H. Qed.

Lemma isDecoration_int n : isDecoration n = true -> is_int n = true.
Proof. unfold isDecoration, is_int, INT_MIN, INT_MAX. lia. Qed.

(** A decoration survives [if (n >= 0) obj[key] = n] followed by [if
    (obj.contains(key)) n = obj[key].toInt()] on a default of -1. *)
Lemma decoration_read_back n :
  isDecoration n = true ->
  (if 0 <=? n then toInt (if 0 <=? n then JDouble n else JUndefined) else -1)
  = n.
Proof.
  intros H. destruct (Z.leb_spec 0 n).
  - apply toInt_int, isDecoration_int, H.
  - unfold isDecoration in H. lia.
Qed.

Lemma stride_read_back n :
  is_int n = true ->
  (if nonzero n then toInt (if nonzero n then JDouble n else JUndefined)
   else 0) = n.
Proof.
  intros H. unfold nonzero. destruct (Z.eqb_spec n 0); simpl.
  - congruence.
  - now apply toInt_int.
Qed.

#[local] Arguments typeStr : simpl never.
#[local] Arguments mapType : simpl never.
#[local] Arguments imageFormatStr : simpl never.
#[local] Arguments mapImageFormat : simpl never.
#[local] Arguments toInt : simpl never.

Lemma inOutVar_inOutObject v :
  inOutVarOk v = true -> inOutVar (inOutObject v) = v.
Proof.
  destruct v as [n t loc bnd dset fmt flags].
  unfold inOutVarOk; simpl. rewrite !andb_true_iff, bool_decide_eq_true.
  intros [[[[Hloc Hbnd] Hset] Hfmt] Hflags].
  unfold inOutVar, inOutObject, addDeco; simpl InOutVariable.location;
    simpl InOutVariable.binding; simpl InOutVariable.descriptorSet;
    simpl InOutVariable.imageFormat; simpl InOutVariable.imageFlags;
    simpl InOutVariable.name; simpl InOutVariable.type.
  read_object.
  f_equal.
  - apply mapType_typeStr.
  - now apply decoration_read_back.
  - now apply decoration_read_back.
  - now apply decoration_read_back.
  - destruct (decide (fmt = ImageFormatUnknown)) as [->|Hne].
    + reflexivity.
    + rewrite bool_decide_eq_true_2 by exact Hne.
      now apply mapImageFormat_imageFormatStr.
  - now apply stride_read_back.
Qed.

Lemma scanByKey_no_token {E : Set} (tab : list (string * E)) unknown t :
  hasToken tab t = false -> scanByKey tab unknown t = unknown.
Proof.
  induction tab as [|[k v] rest IH]; simpl; [reflexivity|].
  destruct (String.eqb k t); simpl; [discriminate | exact IH].
Qed.

(** C3 (amended).  In both tables a token that is no key of the table is
    mapped to the unknown enumerator.  The unknown variable type is
    mapped to the empty token.  The unknown image format is mapped to the
    token "unknown", and it is the encoder that leaves the image format
    out: [addDeco] does not write the key for the unknown format. *)
Theorem unknown_tokens (t : string) (obj : QJsonObject) (v : InOutVariable.t) :
  (hasToken typeTab t = false -> mapType t = Unknown)
  /\ (hasToken imageFormatTab t = false ->
      mapImageFormat t = ImageFormatUnknown)
  /\ typeStr Unknown = ""
  /\ imageFormatStr ImageFormatUnknown = "unknown"
  /\ (InOutVariable.imageFormat v = ImageFormatUnknown ->
      contains (addDeco obj v) imageFormatKey = contains obj imageFormatKey).
Proof.
  split; [apply scanByKey_no_token|].
  split; [apply scanByKey_no_token|].
  split; [reflexivity|]. split; [reflexivity|].
  intros Hfmt. unfold addDeco. rewrite Hfmt. read_object. reflexivity.
Qed.

Lemma unknown_tokens_witness :
  mapType "vec5" = Unknown
  /\ mapImageFormat "vec5" = ImageFormatUnknown
  /\ contains (addDeco [] InOutVariable.default) imageFormatKey = false.
Proof.
  destruct (unknown_tokens "vec5" [] InOutVariable.default)
    as (Htype & Hformat & _ & _ & Hdeco).
  split; [apply Htype; reflexivity|].
  split; [apply Hformat; reflexivity|].
  apply Hdeco. reflexivity.
Defined.

(** ** Block members *)

(** Induction on a block member, with the hypothesis for every struct
    member. *)
Lemma BlockVariable_ind (P : BlockVariable.t -> Prop) :
  (forall n t o s dims astride mstride rowmajor members,
      Forall P members ->
      P (BlockVariable.mk n t o s dims astride mstride rowmajor members)) ->
  forall v, P v.
Proof.
  intros step. fix IH 1. intros [n t o s dims astride mstride rowmajor members].
  apply step. induction members as [|m rest IHrest]; constructor.
  - apply IH.
  - exact IHrest.
Qed.

(** The decoder of the source: [blockVar] reads the struct members only
    when the key is present, and decodes each element of the array as an
    object again. *)
Lemma blockVarOfValue_toObject jv : blockVarOfValue jv = blockVar (toObject jv).
Proof.
  unfold blockVar.
  destruct jv; try reflexivity.
Qed.

Lemma blockVar_unfold obj :
  blockVar obj =
  blockVarFields obj
    (if contains obj structMembersKey
     then BlockVariable.structMembers BlockVariable.default
          ++ map (fun x => blockVar (toObject x))
               (toArray (value obj structMembersKey))
     else BlockVariable.structMembers BlockVariable.default).
Proof.
  unfold blockVar at 1. simpl blockVarOfValue. f_equal.
  rewrite valueWith_value.
  destruct (contains obj structMembersKey) eqn:Hc.
  - simpl app. destruct (value obj structMembersKey); try reflexivity.
    simpl toArray. apply map_ext. intros x. apply blockVarOfValue_toObject.
  - now rewrite value_absent.
Qed.

Lemma map_toInt_JDouble dims :
  forallb is_int dims = true -> map toInt (map JDouble dims) = dims.
Proof.
  induction dims as [|n rest IH]; simpl; [reflexivity|].
  rewrite andb_true_iff. intros [Hn Hrest].
  now rewrite toInt_int, IH.
Qed.

(** Decoding the elements of an encoded list gives the list back, in
    order, when each element is read back from its own encoding. *)
Lemma map_decode_encode {A : Type} (enc : A -> QJsonValue)
  (dec : QJsonValue -> A) (ok : A -> bool) (l : list A) :
  Forall (fun x => ok x = true -> dec (enc x) = x) l ->
  forallb ok l = true ->
  map dec (map enc l) = l.
Proof.
  induction 1 as [|x rest Hx _ IH]; simpl; [reflexivity|].
  rewrite andb_true_iff. intros [Hokx Hrest].
  now rewrite Hx, IH.
Qed.

Lemma blockVar_blockMemberObject v :
  blockVariableOk v = true -> blockVar (blockMemberObject v) = v.
Proof.
  induction v as [n t o s dims astride mstride rowmajor members IH]
    using BlockVariable_ind.
  simpl blockVariableOk. rewrite !andb_true_iff.
  intros [[[[[Ho Hs] Hdims] Hastride] Hmstride] Hmembers].
  rewrite blockVar_unfold. unfold blockVarFields.
  simpl blockMemberObject.
  read_object.
  f_equal.
  - apply mapType_typeStr.
  - now apply toInt_int.
  - now apply toInt_int.
  - destruct dims as [|d0 dims']; [reflexivity|].
    simpl negb. cbv iota. simpl toArray. simpl app.
    exact (map_toInt_JDouble (d0 :: dims') Hdims).
  - now apply stride_read_back.
  - now apply stride_read_back.
  - now destruct rowmajor.
  - destruct members as [|m0 members']; [reflexivity|].
    simpl negb. cbv iota. simpl toArray. simpl app.
    exact (map_decode_encode (fun sv => JObject (blockMemberObject sv))
             (fun x => blockVar (toObject x)) _ _ IH Hmembers).
Qed.

Lemma members_read_back members :
  forallb blockVariableOk members = true ->
  map (fun member => blockVar (toObject member))
    (toArray (membersArray members)) = members.
Proof.
  intros Hok. unfold membersArray. simpl toArray.
  apply (map_decode_encode (fun v => JObject (blockMemberObject v))
           (fun member => blockVar (toObject member)) blockVariableOk);
    [|exact Hok].
  apply Forall_forall. intros v _. apply blockVar_blockMemberObject.
Qed.

(** ** Blocks *)

Lemma uniformBlockOfObject_uniformBlockObject b :
  uniformBlockOk b = true -> uniformBlockOfObject (uniformBlockObject b) = b.
Proof.
  destruct b as [bn sn sz bnd dset members].
  unfold uniformBlockOk; simpl. rewrite !andb_true_iff.
  intros [[[Hsz Hbnd] Hset] Hmembers].
  unfold uniformBlockOfObject, uniformBlockObject; simpl.
  read_object.
  f_equal.
  - now apply toInt_int.
  - now apply decoration_read_back.
  - now apply decoration_read_back.
  - now apply members_read_back.
Qed.

Lemma pushConstantBlockOfObject_pushConstantBlockObject b :
  pushConstantBlockOk b = true ->
  pushConstantBlockOfObject (pushConstantBlockObject b) = b.
Proof.
  destruct b as [n sz members].
  unfold pushConstantBlockOk; simpl. rewrite !andb_true_iff.
  intros [Hsz Hmembers].
  unfold pushConstantBlockOfObject, pushConstantBlockObject; simpl.
  read_object.
  f_equal.
  - now apply toInt_int.
  - now apply members_read_back.
Qed.

Lemma storageBlockOfObject_storageBlockObject b :
  storageBlockOk b = true -> storageBlockOfObject (storageBlockObject b) = b.
Proof.
  destruct b as [bn inst sz bnd dset members].
  unfold storageBlockOk; simpl. rewrite !andb_true_iff.
  intros [[[Hsz Hbnd] Hset] Hmembers].
  unfold storageBlockOfObject, storageBlockObject; simpl.
  read_object.
  f_equal.
  - now apply toInt_int.
  - now apply decoration_read_back.
  - now apply decoration_read_back.
  - now apply members_read_back.
Qed.

(** ** The whole document *)

(** A collection stored under its key unless empty, then loaded when the
    key is present, is the collection decoded element by element. *)
Lemma collection_read_back {A : Type} (ok : A -> bool)
  (enc : A -> QJsonObject) (dec : QJsonObject -> A) (l : list A) :
  (forall x, ok x = true -> dec (enc x) = x) ->
  forallb ok l = true ->
  (if negb (isEmpty (map (fun x => JObject (enc x)) l))
   then map (fun x => dec (toObject x))
          (toArray
             (if negb (isEmpty (map (fun x => JObject (enc x)) l))
              then JArray (map (fun x => JObject (enc x)) l)
              else JUndefined))
   else []) = l.
Proof.
  intros Hdec Hok. destruct l as [|x rest]; [reflexivity|].
  change (map (fun x => dec (toObject x))
            (map (fun x => JObject (enc x)) (x :: rest)) = x :: rest).
  apply (map_decode_encode (fun x => JObject (enc x))
           (fun x => dec (toObject x)) ok); [|exact Hok].
  apply Forall_forall. intros y _. apply Hdec.
Qed.

Lemma loadDoc_makeDoc d d0 :
  descriptionOk d = true -> loadDoc (makeDoc d) d0 = (d, []).
Proof.
  destruct d as [ins outs ubs pcs sbs samplers images].
  unfold descriptionOk; simpl. rewrite !andb_true_iff.
  intros [[[[[[Hins Houts] Hubs] Hpcs] Hsbs] Hsamplers] Himages].
  unfold loadDoc, makeDoc, loadArray; simpl.
  read_object.
  f_equal. f_equal.
  - now apply (collection_read_back inOutVarOk inOutObject inOutVar);
      [apply inOutVar_inOutObject|].
  - now apply (collection_read_back inOutVarOk inOutObject inOutVar);
      [apply inOutVar_inOutObject|].
  - now apply (collection_read_back uniformBlockOk);
      [apply uniformBlockOfObject_uniformBlockObject|].
  - now apply (collection_read_back pushConstantBlockOk);
      [apply pushConstantBlockOfObject_pushConstantBlockObject|].
  - now apply (collection_read_back storageBlockOk);
      [apply storageBlockOfObject_storageBlockObject|].
  - now apply (collection_read_back inOutVarOk inOutObject inOutVar);
      [apply inOutVar_inOutObject|].
  - now apply (collection_read_back inOutVarOk inOutObject inOutVar);
      [apply inOutVar_inOutObject|].
Qed.

(** C4.  A field of an input/output variable or of a block member that
    holds its default is not written: the encoded object has no such key.
    A decoded object that has no such key yields the default for the
    field. *)
Theorem default_fields_omitted_and_restored
  (v : InOutVariable.t) (m : BlockVariable.t) (obj : QJsonObject) :
  ((InOutVariable.location v = -1 ->
    contains (inOutObject v) locationKey = false)
   /\ (InOutVariable.binding v = -1 ->
       contains (inOutObject v) bindingKey = false)
   /\ (InOutVariable.descriptorSet v = -1 ->
       contains (inOutObject v) setKey = false)
   /\ (InOutVariable.imageFormat v = ImageFormatUnknown ->
       contains (inOutObject v) imageFormatKey = false)
   /\ (InOutVariable.imageFlags v = 0 ->
       contains (inOutObject v) imageFlagsKey = false))
  /\ ((BlockVariable.arrayDims m = [] ->
       contains (blockMemberObject m) arrayDimsKey = false)
      /\ (BlockVariable.arrayStride m = 0 ->
          contains (blockMemberObject m) arrayStrideKey = false)
      /\ (BlockVariable.matrixStride m = 0 ->
          contains (blockMemberObject m) matrixStrideKey = false)
      /\ (BlockVariable.matrixIsRowMajor m = false ->
          contains (blockMemberObject m) matrixRowMajorKey = false)
      /\ (BlockVariable.structMembers m = [] ->
          contains (blockMemberObject m) structMembersKey = false))
  /\ ((contains obj locationKey = false ->
       InOutVariable.location (inOutVar obj) = -1)
      /\ (contains obj bindingKey = false ->
          InOutVariable.binding (inOutVar obj) = -1)
      /\ (contains obj setKey = false ->
          InOutVariable.descriptorSet (inOutVar obj) = -1)
      /\ (contains obj imageFormatKey = false ->
          InOutVariable.imageFormat (inOutVar obj) = ImageFormatUnknown)
      /\ (contains obj imageFlagsKey = false ->
          InOutVariable.imageFlags (inOutVar obj) = 0))
  /\ ((contains obj arrayDimsKey = false ->
       BlockVariable.arrayDims (blockVar obj) = [])
      /\ (contains obj arrayStrideKey = false ->
          BlockVariable.arrayStride (blockVar obj) = 0)
      /\ (contains obj matrixStrideKey = false ->
          BlockVariable.matrixStride (blockVar obj) = 0)
      /\ (contains obj matrixRowMajorKey = false ->
          BlockVariable.matrixIsRowMajor (blockVar obj) = false)
      /\ (contains obj structMembersKey = false ->
          BlockVariable.structMembers (blockVar obj) = [])).
Proof.
  split; [|split; [|split]].
  - unfold inOutObject, addDeco.
    repeat split; intros ->; read_object; reflexivity.
  - destruct m as [n t o s dims astride mstride rowmajor members].
    simpl BlockVariable.arrayDims; simpl BlockVariable.arrayStride;
      simpl BlockVariable.matrixStride; simpl BlockVariable.matrixIsRowMajor;
      simpl BlockVariable.structMembers.
    repeat split; intros ->; simpl blockMemberObject; read_object;
      reflexivity.
  - unfold inOutVar; simpl.
    repeat split; intros ->; reflexivity.
  - rewrite blockVar_unfold. unfold blockVarFields; simpl.
    repeat split; intros ->; reflexivity.
Qed.

Lemma default_fields_omitted_and_restored_witness :
  (contains (inOutObject InOutVariable.default) locationKey = false
   /\ contains (inOutObject InOutVariable.default) bindingKey = false
   /\ contains (inOutObject InOutVariable.default) setKey = false
   /\ contains (inOutObject InOutVariable.default) imageFormatKey = false
   /\ contains (inOutObject InOutVariable.default) imageFlagsKey = false)
  /\ (contains (blockMemberObject BlockVariable.default) arrayDimsKey = false
      /\ contains (blockMemberObject BlockVariable.default) arrayStrideKey
         = false
      /\ contains (blockMemberObject BlockVariable.default) matrixStrideKey
         = false
      /\ contains (blockMemberObject BlockVariable.default) matrixRowMajorKey
         = false
      /\ contains (blockMemberObject BlockVariable.default) structMembersKey
         = false)
  /\ (InOutVariable.location (inOutVar [(nameKey, JString "v")]) = -1
      /\ InOutVariable.binding (inOutVar [(nameKey, JString "v")]) = -1
      /\ InOutVariable.descriptorSet (inOutVar [(nameKey, JString "v")]) = -1
      /\ InOutVariable.imageFormat (inOutVar [(nameKey, JString "v")])
         = ImageFormatUnknown
      /\ InOutVariable.imageFlags (inOutVar [(nameKey, JString "v")]) = 0)
  /\ (BlockVariable.arrayDims (blockVar [(nameKey, JString "v")]) = []
      /\ BlockVariable.arrayStride (blockVar [(nameKey, JString "v")]) = 0
      /\ BlockVariable.matrixStride (blockVar [(nameKey, JString "v")]) = 0
      /\ BlockVariable.matrixIsRowMajor (blockVar [(nameKey, JString "v")])
         = false
      /\ BlockVariable.structMembers (blockVar [(nameKey, JString "v")]) = []).
Proof.
  destruct (default_fields_omitted_and_restored InOutVariable.default
              BlockVariable.default [(nameKey, JString "v")])
    as ((E1 & E2 & E3 & E4 & E5) & (E6 & E7 & E8 & E9 & E10)
        & (D1 & D2 & D3 & D4 & D5) & (D6 & D7 & D8 & D9 & D10)).
  refine (conj (conj (E1 _) (conj (E2 _) (conj (E3 _) (conj (E4 _) (E5 _)))))
         (conj (conj (E6 _) (conj (E7 _) (conj (E8 _) (conj (E9 _) (E10 _)))))
         (conj (conj (D1 _) (conj (D2 _) (conj (D3 _) (conj (D4 _) (D5 _)))))
               (conj (D6 _) (conj (D7 _) (conj (D8 _) (conj (D9 _) (D10 _)))))
         )));
    reflexivity.
Defined.

(** ** The binary form *)

Lemma documentAsData_round_trip : BinaryJsonRoundTrip documentAsData.
Proof. intros doc _. reflexivity. Qed.

Lemma fromBinaryJson_toBinaryJson (B : BinaryJson) d :
  BinaryJsonRoundTrip B ->
  descriptionOk d = true ->
  fromBinaryJson (toBinaryJson d) = (d, []).
Proof.
  intros HB Hok. unfold fromBinaryJson, toBinaryJson.
  rewrite HB by reflexivity. now apply loadDoc_makeDoc.
Qed.

(** C1, as the claim has it, fails: the encoder writes a location only
    when it is non-negative, so a location below the sentinel is dropped
    and read back as -1. *)
Lemma round_trip_fails_below_sentinel :
  ~ (forall (B : BinaryJson), BinaryJsonRoundTrip B ->
     forall d, isValid d = true ->
               fst (fromBinaryJson (toBinaryJson d)) = d).
Proof.
  intros H.
  specialize (H documentAsData documentAsData_round_trip
                belowSentinelDescription eq_refl).
  vm_compute in H. discriminate H.
Qed.

(** C1 (amended).  Let the binary form read every document back from
    its own data.  For every description with at least one non-empty
    collection whose numbers are C++ ints, whose locations, bindings and
    descriptor sets are -1 or non-negative, and whose variables do not
    use the format [ImageFormatRgba16]: decoding the encoded description
    gives it back, equal in every field of every element, in the same
    order, with the absence sentinels in place, and logs nothing. *)
Theorem binaryJson_round_trip (B : BinaryJson) (d : QShaderDescriptionPrivate) :
  BinaryJsonRoundTrip B ->
  isValid d = true ->
  descriptionOk d = true ->
  fromBinaryJson (toBinaryJson d) = (d, []).
Proof. intros HB _ Hok. now apply fromBinaryJson_toBinaryJson. Qed.

Lemma binaryJson_round_trip_witness :
  BinaryJsonRoundTrip documentAsData
  /\ isValid exampleDescription = true
  /\ descriptionOk exampleDescription = true
  /\ @fromBinaryJson documentAsData
       (@toBinaryJson documentAsData exampleDescription)
     = (exampleDescription, []).
Proof.
  split; [exact documentAsData_round_trip|].
  split; [reflexivity|]. split; [reflexivity|].
  apply (binaryJson_round_trip documentAsData exampleDescription).
  - exact documentAsData_round_trip.
  - reflexivity.
  - reflexivity.
Defined.

(** The token collision of C2, seen on a whole description: a storage
    image of format [ImageFormatRgba16] is decoded with the format
    [ImageFormatRgba16f]. *)
Example rgba16_image_decoded_as_rgba16f :
  map InOutVariable.imageFormat
    (storageImages
       (fst (@fromBinaryJson documentAsData
               (@toBinaryJson documentAsData rgba16ImageDescription))))
  = [ImageFormatRgba16f].
Proof. vm_compute. reflexivity. Qed.

(** The document of the example description omits [matrixStride] for the
    member [opacity] and reports 16 for [mvp]. *)
Example exampleDescription_matrixStride :
  match makeDoc exampleDescription with
  | DocObject root =>
      map (fun ub =>
             map (fun m => (toString (value (toObject m) nameKey),
                            contains (toObject m) matrixStrideKey,
                            toInt (value (toObject m) matrixStrideKey)))
               (toArray (value (toObject ub) membersKey)))
        (toArray (value root uniformBlocksKey))
  | _ => []
  end = [[("mvp", true, 16); ("opacity", false, 0)]].
Proof. vm_compute. reflexivity. Qed.

(** C5.  When the binary data is no document, that is, when the parser
    of the binary form answers the null document, [fromBinaryJson] logs
    one warning and returns a description whose seven collections are
    empty, hence not valid.  The result is a plain description: there is
    no error value beside it. *)
Theorem fromBinaryJson_null_document (B : BinaryJson) (data : QByteArray) :
  isNull (fromBinaryData data) = true ->
  fromBinaryJson data = (emptyPrivate, [emptyDocumentWarning])
  /\ inVars (fst (fromBinaryJson data)) = []
  /\ outVars (fst (fromBinaryJson data)) = []
  /\ uniformBlocks (fst (fromBinaryJson data)) = []
  /\ pushConstantBlocks (fst (fromBinaryJson data)) = []
  /\ storageBlocks (fst (fromBinaryJson data)) = []
  /\ combinedImageSamplers (fst (fromBinaryJson data)) = []
  /\ storageImages (fst (fromBinaryJson data)) = []
  /\ isValid (fst (fromBinaryJson data)) = false.
Proof.
  intros Hnull. unfold fromBinaryJson, loadDoc. rewrite Hnull.
  repeat split.
Qed.

Lemma fromBinaryJson_null_document_witness :
  isNull (@fromBinaryData documentAsData DocNull) = true
  /\ @fromBinaryJson documentAsData DocNull
     = (emptyPrivate, [emptyDocumentWarning]).
Proof.
  split; [reflexivity|].
  apply (fromBinaryJson_null_document documentAsData DocNull). reflexivity.
Defined.

(** ** The Null backend *)

Section NullBackend.
Context {F : TextureFormats}.

(** *** Building *)

Lemma textureRenderTargetBuild_live (self : QNullTextureRenderTarget) w :
  attachmentsLive self w = true ->
  exists self', textureRenderTargetBuild self w = Some (true, self').
Proof.
  unfold attachmentsLive, textureRenderTargetBuild, texturePixelSize,
    renderBufferPixelSize.
  destruct (QRhiTextureRenderTargetDescription.colorAttachments (m_desc self))
    as [|[[tex|] [rb|]] rest]; simpl;
    try destruct (QRhiTextureRenderTargetDescription.depthStencilBuffer
                    (m_desc self)) as [rb'|];
    try destruct (QRhiTextureRenderTargetDescription.depthTexture
                    (m_desc self)) as [tex'|];
    simpl; rewrite ?bool_decide_eq_true; try discriminate;
    try (intros [x ->]; simpl; eexists; reflexivity);
    intros _; eexists; reflexivity.
Qed.

Lemma textureRenderTargetBuild_not_live (self : QNullTextureRenderTarget) w :
  attachmentsLive self w = false -> textureRenderTargetBuild self w = None.
Proof.
  unfold attachmentsLive, textureRenderTargetBuild, texturePixelSize,
    renderBufferPixelSize.
  destruct (QRhiTextureRenderTargetDescription.colorAttachments (m_desc self))
    as [|[[tex|] [rb|]] rest]; simpl;
    try destruct (QRhiTextureRenderTargetDescription.depthStencilBuffer
                    (m_desc self)) as [rb'|];
    try destruct (QRhiTextureRenderTargetDescription.depthTexture
                    (m_desc self)) as [tex'|];
    simpl; rewrite ?bool_decide_eq_false; try discriminate;
    try reflexivity;
    intros Hnot;
    match goal with
    | |- context [?m !! ?k] =>
        destruct (m !! k) eqn:Hlookup; [exfalso; apply Hnot; eauto|]
    end;
    reflexivity.
Qed.

(** C6 (amended).  For every kind of resource the device creates and
    every construction parameter (any type, usage, size, format, pixel
    size, sample count and flags), [build()] returns and its result is
    true, the sink only receiving the accounting event, with one
    exception: a texture render target reads the pixel size of the
    attachment its description names first (the texture or else the
    render buffer of the first color attachment; without color
    attachment the depth-stencil buffer, else the depth texture, if
    any).  When that attachment is a live object [build()] returns true
    as well; when it is not, in particular when the first color
    attachment names neither a texture nor a render buffer, [build()]
    has no result: the source dereferences a null or dangling pointer.
    No [build()] ever returns false. *)
Theorem build_always_succeeds (CubeMap MipMapped : Z) (this : Ptr)
  (r : Resource) (w : World) :
  (buildable r w = true ->
   exists r' p, build CubeMap MipMapped this r w = Some (true, r', p))
  /\ (buildable r w = false -> build CubeMap MipMapped this r w = None)
  /\ (forall ok r' p,
        build CubeMap MipMapped this r w = Some (ok, r', p) -> ok = true).
Proof.
  assert (Hlive :
    buildable r w = true ->
    exists r' p, build CubeMap MipMapped this r w = Some (true, r', p)).
  { destruct r as [b|rb|tex|s|rt|srb|ps|ps|sc]; simpl; intros Hlive;
      try (eexists; eexists; reflexivity).
    destruct (textureRenderTargetBuild_live rt w Hlive) as [rt' ->].
    simpl. eexists; eexists; reflexivity. }
  assert (Hnot :
    buildable r w = false -> build CubeMap MipMapped this r w = None).
  { destruct r as [b|rb|tex|s|rt|srb|ps|ps|sc]; simpl; intros Hnot;
      try discriminate.
    now rewrite (textureRenderTargetBuild_not_live rt w Hnot). }
  split; [exact Hlive|]. split; [exact Hnot|].
  intros ok r' p Hbuild.
  destruct (buildable r w) eqn:Hb.
  - destruct (Hlive eq_refl) as (r0 & p0 & H0).
    rewrite H0 in Hbuild. now injection Hbuild as <- _ _.
  - rewrite (Hnot eq_refl) in Hbuild. discriminate.
Qed.

(** *** Frames *)

Lemma textureOp_keeps_swapChains u (w w' : World) :
  textureOp u w = Some w' ->
  swapChains w' = swapChains w /\ currentSwapChain w' = currentSwapChain w.
Proof.
  destruct u as [rb resultP| | |]; simpl; intros H;
    [|injection H as <-; split; reflexivity ..].
  destruct (readbackResults w !! resultP) as [result|]; simpl in H;
    [|discriminate].
  destruct (readbackSource rb w) as [[fmt size]|]; simpl in H; [|discriminate].
  injection H as <-.
  destruct (QRhiReadbackResult.completed result); split; reflexivity.
Qed.

Lemma resourceUpdate_keeps_swapChains ops : forall (w w' : World),
  resourceUpdate ops w = Some w' ->
  swapChains w' = swapChains w /\ currentSwapChain w' = currentSwapChain w.
Proof.
  induction ops as [|u rest IH]; simpl; intros w w' H.
  - injection H as <-. split; reflexivity.
  - destruct (textureOp u w) as [w1|] eqn:Hu; simpl in H; [|discriminate].
    apply textureOp_keeps_swapChains in Hu as [Hs Hc].
    apply IH in H as [Hs' Hc']. split; congruence.
Qed.

Lemma record_keeps_swapChains c (w w' : World) :
  record c w = Some w' ->
  swapChains w' = swapChains w /\ currentSwapChain w' = currentSwapChain w.
Proof.
  destruct c as [| | | | | | | | | | | | | | | |[ru|]|[ru|]|[ru|]|[ru|]];
    simpl; intros H;
    try (injection H as <-; split; reflexivity);
    now apply resourceUpdate_keeps_swapChains in H.
Qed.

Lemma recordAll_keeps_swapChains cs : forall (w w' : World),
  recordAll cs w = Some w' ->
  swapChains w' = swapChains w /\ currentSwapChain w' = currentSwapChain w.
Proof.
  induction cs as [|c rest IH]; simpl; intros w w' H.
  - injection H as <-. split; reflexivity.
  - destruct (record c w) as [w1|] eqn:Hc; simpl in H; [|discriminate].
    apply record_keeps_swapChains in Hc as [Hs Hc].
    apply IH in H as [Hs' Hc']. split; congruence.
Qed.

(** C7.  A frame on a live swapchain, whatever is recorded in it:
    [beginFrame] and [endFrame] both return the success result and the
    frame counter of the swapchain is one more than before.
    [buildOrResize] sets the counter to zero and takes the current pixel
    size from the surface. *)
Theorem frame_counts_once (swapChain : Ptr) (swapChainD : QNullSwapChain.t)
  (cs : list Command) (w : World) :
  swapChains w !! swapChain = Some swapChainD ->
  is_Some (recordAll cs (beginFrame swapChain w).2) ->
  (exists w',
      frame swapChain cs w
      = Some (QRhi.FrameOpSuccess, QRhi.FrameOpSuccess, w')
      /\ QNullSwapChain.frameCount <$> swapChains w' !! swapChain
         = Some (QNullSwapChain.frameCount swapChainD + 1))
  /\ (forall this rhiP,
        let '(ok, swapChainD', _) :=
          QNullSwapChain.buildOrResize this swapChainD rhiP in
        ok = true
        /\ QNullSwapChain.frameCount swapChainD' = 0
        /\ QNullSwapChain.m_currentPixelSize swapChainD'
           = QNullSwapChain.surfacePixelSize swapChainD).
Proof.
  intros Hlive [w1 Hrec]. split; [|intros this p; repeat split].
  unfold frame. simpl in Hrec |- *. rewrite Hrec. simpl.
  apply recordAll_keeps_swapChains in Hrec as [Hs _]. simpl in Hs.
  unfold endFrame. rewrite Hs, Hlive. simpl.
  eexists. split; [reflexivity|].
  simpl. now rewrite lookup_insert_eq.
Qed.

(** *** Offscreen frames *)

(** C8 (amended).  [beginOffscreenFrame] checks nothing: in every state
    of the device, a swapchain frame being active or not, it returns the
    success result, hands out the offscreen command buffer of the device
    and leaves the device as it was.  The device keeps no record of an
    active offscreen frame. *)
Theorem beginOffscreenFrame_unconditional (w : World) :
  beginOffscreenFrame w = (QRhi.FrameOpSuccess, offscreenCommandBuffer, w).
Proof. reflexivity. Qed.

(** *** Swapchain size *)

(** C10.  [surfacePixelSize] is 1280x720 for every swapchain, whatever
    happened to it; after [buildOrResize] the current pixel size of the
    swapchain and the pixel size of its render target are both 1280x720. *)
Theorem swapChain_size_constant (this : Ptr) (self : QNullSwapChain.t)
  (p : Profiler) :
  QNullSwapChain.surfacePixelSize self = QSize.mk 1280 720
  /\ (let '(_, self', _) := QNullSwapChain.buildOrResize this self p in
      QNullSwapChain.currentPixelSize self' = QSize.mk 1280 720
      /\ QNullRenderTargetData.pixelSize (QNullSwapChain.rt self')
         = QSize.mk 1280 720).
Proof. repeat split. Qed.

(** The same through the address of a live swapchain. *)
Lemma swapChainBuildOrResize_live (swapChain : Ptr)
  (self : QNullSwapChain.t) (w : World) :
  swapChains w !! swapChain = Some self ->
  exists w' self',
    swapChainBuildOrResize swapChain w = Some (true, w')
    /\ swapChains w' !! swapChain = Some self'
    /\ QNullSwapChain.currentPixelSize self' = QSize.mk 1280 720
    /\ QNullRenderTargetData.pixelSize (QNullSwapChain.rt self')
       = QSize.mk 1280 720
    /\ QNullSwapChain.frameCount self' = 0.
Proof.
  intros Hlive. unfold swapChainBuildOrResize. rewrite Hlive. simpl.
  eexists. eexists. split; [reflexivity|].
  split; [apply lookup_insert_eq|]. repeat split.
Qed.

(** *** Readbacks *)

Lemma length_fill ch size data :
  0 <= size -> length (fill ch size data) = Z.to_nat size.
Proof.
  intros H. unfold fill. destruct (Z.ltb_spec size 0); [lia|].
  apply repeat_length.
Qed.

Lemma fill_all ch size data : Forall (fun b => b = ch) (fill ch size data).
Proof.
  unfold fill. destruct (size <? 0); apply Forall_forall; intros b Hin;
    apply list_elem_of_In in Hin; now apply repeat_spec in Hin.
Qed.

Lemma byteSize_in_range (format : Format) (size : QSize.t) :
  0 <= QSize.width size * QSize.height size * bytesPerTexel format < 2 ^ 31 ->
  intOfQuint32 (textureFormatInfo format size)
  = QSize.width size * QSize.height size * bytesPerTexel format.
Proof.
  intros H. unfold textureFormatInfo, intOfQuint32.
  rewrite Z.mod_small by lia.
  destruct (Z.ltb_spec (QSize.width size * QSize.height size
                        * bytesPerTexel format) (2 ^ 31)); lia.
Qed.

(** C9 (amended).  A read of a live texture reports the format of the
    texture and its pixel size at the requested mip level; a read
    without texture reports [RGBA8] and the current pixel size of the
    current swapchain.  In both cases, when width x height x bytes per
    texel of what is reported is a byte count below 2^31, the operation
    completes and leaves in the result a payload of exactly that many
    bytes, every one of them zero.  ([textureOp] is the body of the loop
    of [resourceUpdate], which applies it to each operation in turn.) *)
Theorem readback_payload (rb : QRhiReadbackDescription.t) (resultP : Ptr)
  (result : QRhiReadbackResult.t) (w : World) :
  (forall texP tex,
      QRhiReadbackDescription.texture rb = Some texP ->
      textures w !! texP = Some tex ->
      readbackSource rb w
      = Some (QNullTexture.m_format tex,
              sizeForMipLevel (QRhiReadbackDescription.level rb)
                (QNullTexture.m_pixelSize tex)))
  /\ (forall swapChainP swapChainD,
        QRhiReadbackDescription.texture rb = None ->
        currentSwapChain w = Some swapChainP ->
        swapChains w !! swapChainP = Some swapChainD ->
        readbackSource rb w
        = Some (RGBA8, QNullSwapChain.currentPixelSize swapChainD))
  /\ (forall format size,
        readbackResults w !! resultP = Some result ->
        readbackSource rb w = Some (format, size) ->
        0 <= QSize.width size * QSize.height size * bytesPerTexel format
          < 2 ^ 31 ->
        exists w' result',
          textureOp (Read rb resultP) w = Some w'
          /\ readbackResults w' !! resultP = Some result'
          /\ QRhiReadbackResult.format result' = format
          /\ QRhiReadbackResult.pixelSize result' = size
          /\ length (QRhiReadbackResult.data result')
             = Z.to_nat (QSize.width size * QSize.height size
                         * bytesPerTexel format)
          /\ Forall (fun b => b = Byte.x00) (QRhiReadbackResult.data result')).
Proof.
  split; [|split].
  - intros texP tex Htex Hlive. unfold readbackSource.
    rewrite Htex, Hlive. reflexivity.
  - intros swapChainP swapChainD Htex Hcur Hlive. unfold readbackSource.
    rewrite Htex, Hcur. simpl. rewrite Hlive. reflexivity.
  - intros format size Hresult Hsource Hrange. simpl.
    rewrite Hresult, Hsource. simpl.
    eexists.
    exists (QRhiReadbackResult.mk (QRhiReadbackResult.completed result)
              format size
              (fill Byte.x00 (intOfQuint32 (textureFormatInfo format size))
                 (QRhiReadbackResult.data result))).
    split; [reflexivity|].
    split.
    { destruct (QRhiReadbackResult.completed result); simpl;
        apply lookup_insert_eq. }
    simpl. split; [reflexivity|]. split; [reflexivity|].
    split.
    + rewrite byteSize_in_range by exact Hrange.
      apply length_fill. lia.
    + apply fill_all.
Qed.

End NullBackend.

(** *** The backend on concrete worlds *)

Lemma build_always_succeeds_witness :
  buildable (TextureRenderTarget exampleRenderTarget) exampleWorld = true
  /\ (exists r' p,
        build 4 8 5%nat (TextureRenderTarget exampleRenderTarget) exampleWorld
        = Some (true, r', p))
  /\ buildable (TextureRenderTarget emptyAttachmentRenderTarget) exampleWorld
     = false
  /\ build 4 8 6%nat (TextureRenderTarget emptyAttachmentRenderTarget)
       exampleWorld = None.
Proof.
  destruct (build_always_succeeds 4 8 5%nat
              (TextureRenderTarget exampleRenderTarget) exampleWorld)
    as (Hlive & _ & _).
  destruct (build_always_succeeds 4 8 6%nat
              (TextureRenderTarget emptyAttachmentRenderTarget) exampleWorld)
    as (_ & Hnot & _).
  split; [reflexivity|]. split; [apply Hlive; reflexivity|].
  split; [reflexivity|]. apply Hnot. reflexivity.
Defined.

(** C6, as the claim has it, fails: a texture render target is created
    from any description, also one whose first color attachment names
    neither a texture nor a render buffer; its [build()] then calls
    [pixelSize()] through the null render buffer pointer and returns
    nothing, so it does not return true. *)
Lemma build_of_empty_attachment :
  build 4 8 6%nat (TextureRenderTarget emptyAttachmentRenderTarget)
    exampleWorld = None
  /\ ~ (exists r' p,
          build 4 8 6%nat (TextureRenderTarget emptyAttachmentRenderTarget)
            exampleWorld = Some (true, r', p)).
Proof.
  split; [reflexivity|]. intros (r' & p & H). discriminate H.
Qed.

Lemma frame_counts_once_witness :
  swapChains exampleWorld !! 2%nat = Some QNullSwapChain.initial
  /\ exists w',
       frame 2%nat exampleCommands exampleWorld
       = Some (QRhi.FrameOpSuccess, QRhi.FrameOpSuccess, w')
       /\ QNullSwapChain.frameCount <$> swapChains w' !! 2%nat = Some 1.
Proof.
  split; [reflexivity|].
  apply (frame_counts_once 2%nat QNullSwapChain.initial exampleCommands
           exampleWorld).
  - reflexivity.
  - eexists. vm_compute. reflexivity.
Defined.

(** C8, as the claim has it, fails: with a swapchain frame active (the
    current swapchain is set by [beginFrame]), [beginOffscreenFrame]
    returns the success result and the swapchain frame stays active. *)
Lemma offscreen_frame_inside_swapchain_frame :
  let w := (beginFrame 2%nat exampleWorld).2 in
  currentSwapChain w = Some 2%nat
  /\ (beginOffscreenFrame w).1.1 = QRhi.FrameOpSuccess
  /\ currentSwapChain (beginOffscreenFrame w).2 = Some 2%nat.
Proof. repeat split. Qed.

(** C9, as the claim has it, fails: for a 32768x32768 texture of four
    bytes per texel the byte size, 2^32, does not fit the [quint32] it
    is returned in; the payload is empty. *)
Lemma readback_payload_wraps :
  exists w' result',
    resourceUpdate [largeRead] exampleWorld = Some w'
    /\ readbackResults w' !! 3%nat = Some result'
    /\ QRhiReadbackResult.pixelSize result' = QSize.mk 32768 32768
    /\ bytesPerTexel (QRhiReadbackResult.format result') = 4
    /\ QRhiReadbackResult.data result' = []
    /\ 32768 * 32768 * 4 = 2 ^ 32.
Proof.
  eexists. eexists. split; [vm_compute; reflexivity|].
  split; [vm_compute; reflexivity|]. repeat split.
Qed.

Lemma readback_payload_witness :
  exists w' result',
    textureOp exampleRead exampleWorld = Some w'
    /\ readbackResults w' !! 3%nat = Some result'
    /\ QRhiReadbackResult.format result' = (RGBA8 : @Format basicFormats)
    /\ QRhiReadbackResult.pixelSize result' = QSize.mk 16 16
    /\ length (QRhiReadbackResult.data result') = 1024%nat
    /\ Forall (fun b => b = Byte.x00) (QRhiReadbackResult.data result').
Proof.
  destruct (readback_payload (QRhiReadbackDescription.mk (Some 1%nat) 0 4)
              3%nat exampleResult exampleWorld) as (Htex & _ & Hpayload).
  apply (Hpayload (RGBA8 : @Format basicFormats) (QSize.mk 16 16)).
  - reflexivity.
  - exact (Htex 1%nat exampleTexture eq_refl eq_refl).
  - vm_compute. split; [discriminate | reflexivity].
Defined.

(** * Further properties *)

(** ** Token tables: the other direction and the collisions *)

Lemma hasToken_entry {E : Set} (tab : list (string * E)) s :
  hasToken tab s = true -> exists v, In (s, v) tab.
Proof.
  unfold hasToken. rewrite existsb_exists. intros [[k v] [Hin Heq]].
  apply String.eqb_eq in Heq. simpl in Heq. subst k. now exists v.
Qed.

(** Every token of a table is printed again from the enumerator it is
    mapped to, the shared token "rgba16" included: a decoded document
    is written back with the tokens it was read with. *)
Theorem token_read_then_printed (s : string) :
  (hasToken typeTab s = true -> typeStr (mapType s) = s)
  /\ (hasToken imageFormatTab s = true ->
      imageFormatStr (mapImageFormat s) = s).
Proof.
  split; intros Hs; apply hasToken_entry in Hs as [v Hin].
  - assert (Hall : forallb
               (fun kv => String.eqb (typeStr (mapType (fst kv))) (fst kv))
               typeTab = true) by (vm_compute; reflexivity).
    rewrite forallb_forall in Hall. apply Hall in Hin.
    now apply String.eqb_eq in Hin.
  - assert (Hall : forallb
               (fun kv =>
                  String.eqb (imageFormatStr (mapImageFormat (fst kv)))
                    (fst kv))
               imageFormatTab = true) by (vm_compute; reflexivity).
    rewrite forallb_forall in Hall. apply Hall in Hin.
    now apply String.eqb_eq in Hin.
Qed.

Lemma token_read_then_printed_witness :
  typeStr (mapType "sampler2D") = "sampler2D"
  /\ imageFormatStr (mapImageFormat "rgba16") = "rgba16".
Proof.
  destruct (token_read_then_printed "sampler2D") as [Htype _].
  destruct (token_read_then_printed "rgba16") as [_ Hformat].
  split; [apply Htype | apply Hformat]; reflexivity.
Defined.

(** What a scan by key can return: the unknown enumerator, or what the
    scan returns for one of the table's own keys. *)
Lemma scanByKey_range {E : Set} (tab : list (string * E)) unknown s :
  In (scanByKey tab unknown s)
    (unknown :: map (fun kv => scanByKey tab unknown (fst kv)) tab).
Proof.
  destruct (hasToken tab s) eqn:Hs.
  - apply hasToken_entry in Hs as [v Hin]. right.
    apply in_map_iff. exists (s, v). split; [reflexivity | exact Hin].
  - left. symmetry. now apply scanByKey_no_token.
Qed.

(** No token at all is mapped to [ImageFormatRgba16]: the enumerator
    cannot come out of a decoded document. *)
Theorem mapImageFormat_never_rgba16 (s : string) :
  mapImageFormat s <> ImageFormatRgba16.
Proof.
  intros Heq.
  pose proof (scanByKey_range imageFormatTab ImageFormatUnknown s) as Hin.
  fold (mapImageFormat s) in Hin. rewrite Heq in Hin.
  assert (Hnot : forallb
             (fun f => negb (bool_decide (ImageFormatRgba16 = f)))
             (ImageFormatUnknown
              :: map (fun kv => scanByKey imageFormatTab ImageFormatUnknown
                                  (fst kv)) imageFormatTab) = true)
    by (vm_compute; reflexivity).
  rewrite forallb_forall in Hnot. apply Hnot in Hin.
  rewrite negb_true_iff, bool_decide_eq_false in Hin. now apply Hin.
Qed.

(** Two variable types never share a token, and only the unknown type
    prints as the empty token.  Two distinct image formats share a token
    only if they are [ImageFormatRgba16f] and [ImageFormatRgba16]. *)
Theorem token_collisions (t0 t1 t2 : VariableType) (f1 f2 : ImageFormat) :
  (typeStr t1 = typeStr t2 -> t1 = t2)
  /\ (typeStr t0 = "" -> t0 = Unknown)
  /\ (imageFormatStr f1 = imageFormatStr f2 ->
      f1 = f2
      \/ (f1 = ImageFormatRgba16f /\ f2 = ImageFormatRgba16)
      \/ (f1 = ImageFormatRgba16 /\ f2 = ImageFormatRgba16f)).
Proof.
  split; [|split].
  - intros Heq. rewrite <- (mapType_typeStr t1), <- (mapType_typeStr t2).
    now rewrite Heq.
  - intros Heq. rewrite <- (mapType_typeStr t0), Heq. reflexivity.
  - intros Heq.
    destruct (decide (f1 = ImageFormatRgba16)) as [->|H1];
      destruct (decide (f2 = ImageFormatRgba16)) as [->|H2].
    + now left.
    + right; right. split; [reflexivity|].
      rewrite <- (mapImageFormat_imageFormatStr f2 H2), <- Heq. reflexivity.
    + right; left. split; [|reflexivity].
      rewrite <- (mapImageFormat_imageFormatStr f1 H1), Heq. reflexivity.
    + left.
      rewrite <- (mapImageFormat_imageFormatStr f1 H1),
        <- (mapImageFormat_imageFormatStr f2 H2).
      now rewrite Heq.
Qed.

Lemma token_collisions_witness :
  Vec3 = Vec3
  /\ Unknown = Unknown
  /\ (ImageFormatRgba16f = ImageFormatRgba16
      \/ (ImageFormatRgba16f = ImageFormatRgba16f
          /\ ImageFormatRgba16 = ImageFormatRgba16)
      \/ (ImageFormatRgba16f = ImageFormatRgba16
          /\ ImageFormatRgba16 = ImageFormatRgba16f)).
Proof.
  destruct (token_collisions Unknown Vec3 Vec3
              ImageFormatRgba16f ImageFormatRgba16)
    as (Htype & Hunknown & Hformat).
  split; [apply Htype; reflexivity|].
  split; [apply Hunknown; reflexivity|].
  apply Hformat; reflexivity.
Defined.

(** ** The root object *)

Lemma isEmpty_map {A B : Type} (f : A -> B) (l : list A) :
  isEmpty (map f l) = isEmpty l.
Proof. now destruct l. Qed.

Lemma isEmpty_insert key v obj : isEmpty (insert key v obj) = false.
Proof.
  destruct obj as [|[k w] rest]; simpl; [reflexivity|].
  now destruct (String.eqb k key).
Qed.

Lemma isEmpty_insertIf c key v obj :
  isEmpty (insertIf c key v obj) = negb c && isEmpty obj.
Proof. destruct c; simpl; [apply isEmpty_insert | reflexivity]. Qed.

(** The document of a description is never null, and its root object
    has a key exactly for each collection that is not empty; the root
    object is empty exactly when the description is not valid. *)
Theorem root_keys_of_makeDoc (d : QShaderDescriptionPrivate) :
  isNull (makeDoc d) = false
  /\ contains (object (makeDoc d)) inputsKey = negb (isEmpty (inVars d))
  /\ contains (object (makeDoc d)) outputsKey = negb (isEmpty (outVars d))
  /\ contains (object (makeDoc d)) uniformBlocksKey
     = negb (isEmpty (uniformBlocks d))
  /\ contains (object (makeDoc d)) pushConstantBlocksKey
     = negb (isEmpty (pushConstantBlocks d))
  /\ contains (object (makeDoc d)) storageBlocksKey
     = negb (isEmpty (storageBlocks d))
  /\ contains (object (makeDoc d)) combinedImageSamplersKey
     = negb (isEmpty (combinedImageSamplers d))
  /\ contains (object (makeDoc d)) storageImagesKey
     = negb (isEmpty (storageImages d))
  /\ isEmpty (object (makeDoc d)) = negb (isValid d).
Proof.
  split; [reflexivity|].
  unfold makeDoc, isValid; simpl object.
  repeat split; try (read_object; rewrite isEmpty_map; reflexivity).
  rewrite !isEmpty_insertIf, !isEmpty_map, !negb_involutive. simpl isEmpty.
  rewrite andb_true_r.
  destruct (isEmpty (inVars d)), (isEmpty (outVars d)),
    (isEmpty (uniformBlocks d)), (isEmpty (pushConstantBlocks d)),
    (isEmpty (storageBlocks d)), (isEmpty (combinedImageSamplers d)),
    (isEmpty (storageImages d)); reflexivity.
Qed.

(** ** Decoding any document *)

Lemma loadArray_any {A : Type} root key (f : QJsonObject -> A) :
  loadArray root key f
  = map (fun x => f (toObject x)) (toArray (value root key)).
Proof.
  unfold loadArray. destruct (contains root key) eqn:Hc; [reflexivity|].
  now rewrite value_absent.
Qed.

(** The decoder accepts every document that is not null, without a
    warning: each collection gets one element for each element of the
    array under its root key, whatever the elements are, and none when
    the key is absent or holds something else than an array.  What the
    description held before is gone. *)
Theorem loadDoc_any_document (doc : QJsonDocument)
  (d0 : QShaderDescriptionPrivate) :
  isNull doc = false ->
  (loadDoc doc d0).2 = []
  /\ loadDoc doc d0 = loadDoc doc emptyPrivate
  /\ length (inVars (loadDoc doc d0).1) = arrayLength (object doc) inputsKey
  /\ length (outVars (loadDoc doc d0).1) = arrayLength (object doc) outputsKey
  /\ length (uniformBlocks (loadDoc doc d0).1)
     = arrayLength (object doc) uniformBlocksKey
  /\ length (pushConstantBlocks (loadDoc doc d0).1)
     = arrayLength (object doc) pushConstantBlocksKey
  /\ length (storageBlocks (loadDoc doc d0).1)
     = arrayLength (object doc) storageBlocksKey
  /\ length (combinedImageSamplers (loadDoc doc d0).1)
     = arrayLength (object doc) combinedImageSamplersKey
  /\ length (storageImages (loadDoc doc d0).1)
     = arrayLength (object doc) storageImagesKey.
Proof.
  intros Hdoc. unfold loadDoc, arrayLength. rewrite Hdoc. simpl.
  rewrite !loadArray_any, !length_map. repeat split.
Qed.

Lemma loadDoc_any_document_witness :
  (loadDoc (DocObject [(inputsKey, JArray [JNull; JDouble 7]);
                       (outputsKey, JString "none")])
     exampleDescription).2 = []
  /\ length (inVars
               (loadDoc (DocObject [(inputsKey, JArray [JNull; JDouble 7]);
                                    (outputsKey, JString "none")])
                  exampleDescription).1) = 2%nat
  /\ length (uniformBlocks
               (loadDoc (DocObject [(inputsKey, JArray [JNull; JDouble 7]);
                                    (outputsKey, JString "none")])
                  exampleDescription).1) = 0%nat.
Proof.
  destruct (loadDoc_any_document
              (DocObject [(inputsKey, JArray [JNull; JDouble 7]);
                          (outputsKey, JString "none")])
              exampleDescription eq_refl)
    as (Hlog & _ & Hin & _ & Hub & _).
  split; [exact Hlog|]. split; [exact Hin | exact Hub].
Defined.

(** ** A description after one round trip *)

Lemma makeDoc_rootOf d :
  makeDoc d
  = DocObject
      (rootOf (map (fun v => JObject (inOutObject v)) (inVars d))
         (map (fun v => JObject (inOutObject v)) (outVars d))
         (map (fun b => JObject (uniformBlockObject b)) (uniformBlocks d))
         (map (fun b => JObject (pushConstantBlockObject b))
            (pushConstantBlocks d))
         (map (fun b => JObject (storageBlockObject b)) (storageBlocks d))
         (map (fun v => JObject (inOutObject v)) (combinedImageSamplers d))
         (map (fun v => JObject (inOutObject v)) (storageImages d))).
Proof. reflexivity. Qed.

(** What is loaded from a collection stored by [makeDoc]: every element
    encoded and decoded, in order. *)
Lemma collection_loaded {A : Type} (enc : A -> QJsonObject)
  (dec : QJsonObject -> A) (l : list A) :
  map (fun x => dec (toObject x))
    (toArray
       (if negb (isEmpty (map (fun x => JObject (enc x)) l))
        then JArray (map (fun x => JObject (enc x)) l)
        else JUndefined))
  = map (fun x => dec (enc x)) l.
Proof. destruct l as [|x rest]; [reflexivity|]. simpl. now rewrite map_map. Qed.

Lemma loadDoc_makeDoc_any d d0 :
  (loadDoc (makeDoc d) d0).1
  = {| inVars := map (fun v => inOutVar (inOutObject v)) (inVars d);
       outVars := map (fun v => inOutVar (inOutObject v)) (outVars d);
       uniformBlocks :=
         map (fun b => uniformBlockOfObject (uniformBlockObject b))
           (uniformBlocks d);
       pushConstantBlocks :=
         map (fun b => pushConstantBlockOfObject (pushConstantBlockObject b))
           (pushConstantBlocks d);
       storageBlocks :=
         map (fun b => storageBlockOfObject (storageBlockObject b))
           (storageBlocks d);
       combinedImageSamplers :=
         map (fun v => inOutVar (inOutObject v)) (combinedImageSamplers d);
       storageImages :=
         map (fun v => inOutVar (inOutObject v)) (storageImages d) |}.
Proof.
  rewrite makeDoc_rootOf. unfold loadDoc, rootOf; simpl.
  rewrite !loadArray_any. read_object.
  now rewrite !collection_loaded.
Qed.

(** A round trip keeps the number of elements of every collection, for
    every description, also one whose values it does not keep; so it
    keeps the description valid or not valid. *)
Theorem round_trip_keeps_sizes (d d0 : QShaderDescriptionPrivate) :
  length (inVars (loadDoc (makeDoc d) d0).1) = length (inVars d)
  /\ length (outVars (loadDoc (makeDoc d) d0).1) = length (outVars d)
  /\ length (uniformBlocks (loadDoc (makeDoc d) d0).1)
     = length (uniformBlocks d)
  /\ length (pushConstantBlocks (loadDoc (makeDoc d) d0).1)
     = length (pushConstantBlocks d)
  /\ length (storageBlocks (loadDoc (makeDoc d) d0).1)
     = length (storageBlocks d)
  /\ length (combinedImageSamplers (loadDoc (makeDoc d) d0).1)
     = length (combinedImageSamplers d)
  /\ length (storageImages (loadDoc (makeDoc d) d0).1)
     = length (storageImages d)
  /\ isValid (loadDoc (makeDoc d) d0).1 = isValid d.
Proof.
  rewrite loadDoc_makeDoc_any. unfold isValid; simpl.
  rewrite !length_map, !isEmpty_map. repeat split.
Qed.

(** *** The document is stable *)

Lemma insertIf_decoration n key obj :
  is_int n = true ->
  let n' := if 0 <=? n then toInt (if 0 <=? n then JDouble n else JUndefined)
            else -1 in
  insertIf (0 <=? n') key (JDouble n') obj
  = insertIf (0 <=? n) key (JDouble n) obj.
Proof.
  intros Hn. simpl. destruct (Z.leb_spec 0 n) as [Hle|Hlt].
  - rewrite toInt_int by exact Hn.
    now destruct (Z.leb_spec 0 n); [|lia].
  - reflexivity.
Qed.

Lemma insertIf_imageFormat f key obj :
  let f' := if bool_decide (f <> ImageFormatUnknown)
            then mapImageFormat
                   (toString
                      (if bool_decide (f <> ImageFormatUnknown)
                       then JString (imageFormatStr f) else JUndefined))
            else ImageFormatUnknown in
  insertIf (bool_decide (f' <> ImageFormatUnknown)) key
    (JString (imageFormatStr f')) obj
  = insertIf (bool_decide (f <> ImageFormatUnknown)) key
      (JString (imageFormatStr f)) obj.
Proof. destruct f; reflexivity. Qed.

Lemma insertIf_flags n key obj :
  is_int n = true ->
  let n' := if nonzero n
            then toInt (if nonzero n then JDouble n else JUndefined)
            else 0 in
  insertIf (nonzero n') key (JDouble n') obj
  = insertIf (nonzero n) key (JDouble n) obj.
Proof. intros Hn. simpl. now rewrite stride_read_back. Qed.

Lemma inOutVar_inOutObject_fields v :
  inOutVar (inOutObject v)
  = {| InOutVariable.name := InOutVariable.name v;
       InOutVariable.type := InOutVariable.type v;
       InOutVariable.location :=
         if 0 <=? InOutVariable.location v
         then toInt (if 0 <=? InOutVariable.location v
                     then JDouble (InOutVariable.location v) else JUndefined)
         else -1;
       InOutVariable.binding :=
         if 0 <=? InOutVariable.binding v
         then toInt (if 0 <=? InOutVariable.binding v
                     then JDouble (InOutVariable.binding v) else JUndefined)
         else -1;
       InOutVariable.descriptorSet :=
         if 0 <=? InOutVariable.descriptorSet v
         then toInt (if 0 <=? InOutVariable.descriptorSet v
                     then JDouble (InOutVariable.descriptorSet v)
                     else JUndefined)
         else -1;
       InOutVariable.imageFormat :=
         if bool_decide (InOutVariable.imageFormat v <> ImageFormatUnknown)
         then mapImageFormat
                (toString
                   (if bool_decide
                         (InOutVariable.imageFormat v <> ImageFormatUnknown)
                    then JString (imageFormatStr (InOutVariable.imageFormat v))
                    else JUndefined))
         else ImageFormatUnknown;
       InOutVariable.imageFlags :=
         if nonzero (InOutVariable.imageFlags v)
         then toInt (if nonzero (InOutVariable.imageFlags v)
                     then JDouble (InOutVariable.imageFlags v)
                     else JUndefined)
         else 0 |}.
Proof.
  unfold inOutVar, inOutObject, addDeco. read_object.
  f_equal. apply mapType_typeStr.
Qed.

Lemma inOutObject_stable v :
  inOutVarInts v = true ->
  inOutObject (inOutVar (inOutObject v)) = inOutObject v.
Proof.
  unfold inOutVarInts. rewrite !andb_true_iff.
  intros [[[Hloc Hbnd] Hset] Hflags].
  rewrite inOutVar_inOutObject_fields.
  unfold inOutObject at 1, addDeco at 1; simpl.
  rewrite (insertIf_decoration _ _ _ Hloc).
  rewrite (insertIf_decoration _ _ _ Hbnd).
  rewrite (insertIf_decoration _ _ _ Hset).
  rewrite insertIf_imageFormat.
  rewrite (insertIf_flags _ _ _ Hflags).
  reflexivity.
Qed.

Lemma uniformBlockObject_stable b :
  uniformBlockInts b = true ->
  uniformBlockObject (uniformBlockOfObject (uniformBlockObject b))
  = uniformBlockObject b.
Proof.
  destruct b as [bn sn sz bnd dset members].
  unfold uniformBlockInts; simpl. rewrite !andb_true_iff.
  intros [[[Hsz Hbnd] Hset] Hmembers].
  assert (Hfields :
    uniformBlockOfObject
      (uniformBlockObject (UniformBlock.mk bn sn sz bnd dset members))
    = UniformBlock.mk bn sn sz
        (if 0 <=? bnd
         then toInt (if 0 <=? bnd then JDouble bnd else JUndefined) else -1)
        (if 0 <=? dset
         then toInt (if 0 <=? dset then JDouble dset else JUndefined) else -1)
        members).
  { unfold uniformBlockOfObject, uniformBlockObject; simpl. read_object.
    f_equal; [now apply toInt_int | now apply members_read_back]. }
  rewrite Hfields. unfold uniformBlockObject; simpl.
  rewrite (insertIf_decoration _ _ _ Hbnd).
  rewrite (insertIf_decoration _ _ _ Hset).
  reflexivity.
Qed.

Lemma storageBlockObject_stable b :
  storageBlockInts b = true ->
  storageBlockObject (storageBlockOfObject (storageBlockObject b))
  = storageBlockObject b.
Proof.
  destruct b as [bn inst sz bnd dset members].
  unfold storageBlockInts; simpl. rewrite !andb_true_iff.
  intros [[[Hsz Hbnd] Hset] Hmembers].
  assert (Hfields :
    storageBlockOfObject
      (storageBlockObject (StorageBlock.mk bn inst sz bnd dset members))
    = StorageBlock.mk bn inst sz
        (if 0 <=? bnd
         then toInt (if 0 <=? bnd then JDouble bnd else JUndefined) else -1)
        (if 0 <=? dset
         then toInt (if 0 <=? dset then JDouble dset else JUndefined) else -1)
        members).
  { unfold storageBlockOfObject, storageBlockObject; simpl. read_object.
    f_equal; [now apply toInt_int | now apply members_read_back]. }
  rewrite Hfields. unfold storageBlockObject; simpl.
  rewrite (insertIf_decoration _ _ _ Hbnd).
  rewrite (insertIf_decoration _ _ _ Hset).
  reflexivity.
Qed.

Lemma map_encode_stable {A : Type} (ok : A -> bool) (enc : A -> QJsonObject)
  (dec : QJsonObject -> A) (l : list A) :
  (forall x, ok x = true -> enc (dec (enc x)) = enc x) ->
  forallb ok l = true ->
  map (fun x => JObject (enc x)) (map (fun x => dec (enc x)) l)
  = map (fun x => JObject (enc x)) l.
Proof.
  intros Hstable. induction l as [|x rest IH]; simpl; [reflexivity|].
  rewrite andb_true_iff. intros [Hx Hrest].
  now rewrite Hstable, IH.
Qed.

(** Encoding, decoding and encoding again gives the first document, for
    every description whose numbers are C++ ints: also for a description
    that does not survive the round trip itself (a location below -1, the
    format [ImageFormatRgba16]), the document does. *)
Theorem makeDoc_stable (d d0 : QShaderDescriptionPrivate) :
  descriptionInts d = true ->
  makeDoc (loadDoc (makeDoc d) d0).1 = makeDoc d.
Proof.
  unfold descriptionInts. rewrite !andb_true_iff.
  intros [[[[[[Hins Houts] Hubs] Hpcs] Hsbs] Hsamplers] Himages].
  rewrite loadDoc_makeDoc_any, !makeDoc_rootOf; simpl.
  rewrite (map_encode_stable inOutVarInts inOutObject inOutVar (inVars d)
             inOutObject_stable Hins).
  rewrite (map_encode_stable inOutVarInts inOutObject inOutVar (outVars d)
             inOutObject_stable Houts).
  rewrite (map_encode_stable uniformBlockInts uniformBlockObject
             uniformBlockOfObject (uniformBlocks d)
             uniformBlockObject_stable Hubs).
  rewrite (map_encode_stable pushConstantBlockOk pushConstantBlockObject
             pushConstantBlockOfObject (pushConstantBlocks d)
             (fun b Hb =>
                f_equal pushConstantBlockObject
                  (pushConstantBlockOfObject_pushConstantBlockObject b Hb))
             Hpcs).
  rewrite (map_encode_stable storageBlockInts storageBlockObject
             storageBlockOfObject (storageBlocks d)
             storageBlockObject_stable Hsbs).
  rewrite (map_encode_stable inOutVarInts inOutObject inOutVar
             (combinedImageSamplers d) inOutObject_stable Hsamplers).
  rewrite (map_encode_stable inOutVarInts inOutObject inOutVar
             (storageImages d) inOutObject_stable Himages).
  reflexivity.
Qed.

Lemma makeDoc_stable_witness :
  descriptionInts rgba16ImageDescription = true
  /\ descriptionInts belowSentinelDescription = true
  /\ makeDoc (loadDoc (makeDoc rgba16ImageDescription) emptyPrivate).1
     = makeDoc rgba16ImageDescription
  /\ makeDoc (loadDoc (makeDoc belowSentinelDescription) emptyPrivate).1
     = makeDoc belowSentinelDescription.
Proof.
  split; [reflexivity|]. split; [reflexivity|].
  split.
  - apply (makeDoc_stable rgba16ImageDescription emptyPrivate). reflexivity.
  - apply (makeDoc_stable belowSentinelDescription emptyPrivate). reflexivity.
Defined.

(** ** The keys of the encoded objects *)

Ltac key_cases :=
  repeat first [ rewrite contains_insertIf | rewrite contains_insert ];
  cbn [contains]; rewrite ?orb_false_r, ?orb_true_iff, ?andb_true_iff;
  rewrite ?String.eqb_eq; simpl In; intuition auto.

(** The object of an input or output variable has no key outside the
    seven documented ones; [name] and [type] are always there, the type
    of an unknown variable as the empty string; each of the five other
    keys is there exactly when the test of the encoder holds, and then
    it holds the value of the field. *)
Theorem inOutObject_schema (v : InOutVariable.t) (key : string) :
  (contains (inOutObject v) key = true -> In key inOutKeys)
  /\ value (inOutObject v) nameKey = JString (InOutVariable.name v)
  /\ value (inOutObject v) typeKey = JString (typeStr (InOutVariable.type v))
  /\ contains (inOutObject v) locationKey = (0 <=? InOutVariable.location v)
  /\ contains (inOutObject v) bindingKey = (0 <=? InOutVariable.binding v)
  /\ contains (inOutObject v) setKey = (0 <=? InOutVariable.descriptorSet v)
  /\ contains (inOutObject v) imageFormatKey
     = bool_decide (InOutVariable.imageFormat v <> ImageFormatUnknown)
  /\ contains (inOutObject v) imageFlagsKey
     = nonzero (InOutVariable.imageFlags v)
  /\ (0 <= InOutVariable.location v ->
      value (inOutObject v) locationKey = JDouble (InOutVariable.location v))
  /\ (0 <= InOutVariable.binding v ->
      value (inOutObject v) bindingKey = JDouble (InOutVariable.binding v))
  /\ (0 <= InOutVariable.descriptorSet v ->
      value (inOutObject v) setKey = JDouble (InOutVariable.descriptorSet v))
  /\ (InOutVariable.imageFormat v <> ImageFormatUnknown ->
      value (inOutObject v) imageFormatKey
      = JString (imageFormatStr (InOutVariable.imageFormat v)))
  /\ (InOutVariable.imageFlags v <> 0 ->
      value (inOutObject v) imageFlagsKey
      = JDouble (InOutVariable.imageFlags v)).
Proof.
  unfold inOutObject, addDeco, inOutKeys.
  split; [key_cases|].
  repeat (split; [read_object; reflexivity|]).
  split; [|split; [|split; [|split]]]; intros Hset; read_object.
  - now destruct (Z.leb_spec 0 (InOutVariable.location v)); [|lia].
  - now destruct (Z.leb_spec 0 (InOutVariable.binding v)); [|lia].
  - now destruct (Z.leb_spec 0 (InOutVariable.descriptorSet v)); [|lia].
  - now rewrite bool_decide_eq_true_2.
  - unfold nonzero.
    now destruct (Z.eqb_spec (InOutVariable.imageFlags v) 0).
Qed.

Lemma inOutObject_schema_witness :
  In locationKey inOutKeys
  /\ value (inOutObject (hd InOutVariable.default (inVars exampleDescription)))
       locationKey = JDouble 1
  /\ contains (inOutObject
                 (hd InOutVariable.default (inVars exampleDescription)))
       bindingKey = false.
Proof.
  destruct (inOutObject_schema
              (hd InOutVariable.default (inVars exampleDescription))
              locationKey)
    as (Hkeys & _ & _ & _ & Hbinding & _ & _ & _ & Hloc & _).
  split; [apply Hkeys; reflexivity|].
  split; [apply Hloc; discriminate | exact Hbinding].
Defined.

(** The object of a block member has no key outside the nine documented
    ones; [name], [type], [offset] and [size] are always there; each of
    the five other keys is there exactly when the test of the encoder
    holds.  The array dimensions are written in order and the struct
    members are written as objects of the same kind, in order. *)
Theorem blockMemberObject_schema (m : BlockVariable.t) (key : string) :
  (contains (blockMemberObject m) key = true -> In key blockMemberKeys)
  /\ value (blockMemberObject m) nameKey = JString (BlockVariable.name m)
  /\ value (blockMemberObject m) typeKey
     = JString (typeStr (BlockVariable.type m))
  /\ value (blockMemberObject m) offsetKey = JDouble (BlockVariable.offset m)
  /\ value (blockMemberObject m) sizeKey = JDouble (BlockVariable.size m)
  /\ contains (blockMemberObject m) arrayDimsKey
     = negb (isEmpty (BlockVariable.arrayDims m))
  /\ contains (blockMemberObject m) arrayStrideKey
     = nonzero (BlockVariable.arrayStride m)
  /\ contains (blockMemberObject m) matrixStrideKey
     = nonzero (BlockVariable.matrixStride m)
  /\ contains (blockMemberObject m) matrixRowMajorKey
     = BlockVariable.matrixIsRowMajor m
  /\ contains (blockMemberObject m) structMembersKey
     = negb (isEmpty (BlockVariable.structMembers m))
  /\ (BlockVariable.arrayDims m <> [] ->
      value (blockMemberObject m) arrayDimsKey
      = JArray (map JDouble (BlockVariable.arrayDims m)))
  /\ (BlockVariable.structMembers m <> [] ->
      value (blockMemberObject m) structMembersKey
      = JArray (map (fun sv => JObject (blockMemberObject sv))
                  (BlockVariable.structMembers m))).
Proof.
  destruct m as [n t o s dims astride mstride rowmajor members].
  unfold blockMemberKeys. simpl blockMemberObject.
  simpl BlockVariable.name; simpl BlockVariable.type;
    simpl BlockVariable.offset; simpl BlockVariable.size;
    simpl BlockVariable.arrayDims; simpl BlockVariable.arrayStride;
    simpl BlockVariable.matrixStride; simpl BlockVariable.matrixIsRowMajor;
    simpl BlockVariable.structMembers.
  split; [key_cases|].
  repeat (split; [read_object; reflexivity|]).
  split; intros Hset; read_object.
  - now destruct dims.
  - now destruct members.
Qed.

Lemma blockMemberObject_schema_witness :
  In arrayStrideKey blockMemberKeys
  /\ value (blockMemberObject
              (BlockVariable.mk "s" Struct 0 16 [2; 0] 16 0 false
                 [BlockVariable.mk "a" Vec2 0 8 [] 0 0 false []]))
       arrayDimsKey = JArray [JDouble 2; JDouble 0]
  /\ value (blockMemberObject
              (BlockVariable.mk "s" Struct 0 16 [2; 0] 16 0 false
                 [BlockVariable.mk "a" Vec2 0 8 [] 0 0 false []]))
       structMembersKey
     = JArray
         [JObject
            (blockMemberObject (BlockVariable.mk "a" Vec2 0 8 [] 0 0 false []))].
Proof.
  destruct (blockMemberObject_schema
              (BlockVariable.mk "s" Struct 0 16 [2; 0] 16 0 false
                 [BlockVariable.mk "a" Vec2 0 8 [] 0 0 false []])
              arrayStrideKey)
    as (Hkeys & _ & _ & _ & _ & _ & _ & _ & _ & _ & Hdims & Hmembers).
  split; [apply Hkeys; reflexivity|].
  split; [apply Hdims; discriminate | apply Hmembers; discriminate].
Defined.

(** The objects of the three kinds of blocks: no key outside the
    documented ones; the name, size and [members] keys are always there,
    [members] also for a block without members; [binding] and [set] are
    there exactly when the value is not negative. *)
Theorem block_objects_schema (ub : UniformBlock.t) (pc : PushConstantBlock.t)
  (sb : StorageBlock.t) (key : string) :
  ((contains (uniformBlockObject ub) key = true -> In key uniformBlockKeys)
   /\ contains (uniformBlockObject ub) bindingKey
      = (0 <=? UniformBlock.binding ub)
   /\ contains (uniformBlockObject ub) setKey
      = (0 <=? UniformBlock.descriptorSet ub)
   /\ value (uniformBlockObject ub) blockNameKey
      = JString (UniformBlock.blockName ub)
   /\ value (uniformBlockObject ub) structNameKey
      = JString (UniformBlock.structName ub)
   /\ value (uniformBlockObject ub) sizeKey = JDouble (UniformBlock.size ub)
   /\ value (uniformBlockObject ub) membersKey
      = membersArray (UniformBlock.members ub))
  /\ ((contains (pushConstantBlockObject pc) key = true ->
       In key pushConstantBlockKeys)
      /\ value (pushConstantBlockObject pc) nameKey
         = JString (PushConstantBlock.name pc)
      /\ value (pushConstantBlockObject pc) sizeKey
         = JDouble (PushConstantBlock.size pc)
      /\ value (pushConstantBlockObject pc) membersKey
         = membersArray (PushConstantBlock.members pc))
  /\ ((contains (storageBlockObject sb) key = true -> In key storageBlockKeys)
      /\ contains (storageBlockObject sb) bindingKey
         = (0 <=? StorageBlock.binding sb)
      /\ contains (storageBlockObject sb) setKey
         = (0 <=? StorageBlock.descriptorSet sb)
      /\ value (storageBlockObject sb) blockNameKey
         = JString (StorageBlock.blockName sb)
      /\ value (storageBlockObject sb) instanceNameKey
         = JString (StorageBlock.instanceName sb)
      /\ value (storageBlockObject sb) knownSizeKey
         = JDouble (StorageBlock.knownSize sb)
      /\ value (storageBlockObject sb) membersKey
         = membersArray (StorageBlock.members sb)).
Proof.
  unfold uniformBlockObject, pushConstantBlockObject, storageBlockObject,
    uniformBlockKeys, pushConstantBlockKeys, storageBlockKeys.
  split; [|split].
  - split; [key_cases|]. repeat (split; [read_object; reflexivity|]).
    read_object; reflexivity.
  - split; [key_cases|]. repeat (split; [read_object; reflexivity|]).
    read_object; reflexivity.
  - split; [key_cases|]. repeat (split; [read_object; reflexivity|]).
    read_object; reflexivity.
Qed.

Lemma block_objects_schema_witness :
  In bindingKey uniformBlockKeys
  /\ In membersKey pushConstantBlockKeys
  /\ In membersKey storageBlockKeys.
Proof.
  destruct (block_objects_schema
              (hd UniformBlock.default (uniformBlocks exampleDescription))
              PushConstantBlock.default StorageBlock.default bindingKey)
    as ((Hub & _) & _ & _).
  destruct (block_objects_schema UniformBlock.default
              PushConstantBlock.default StorageBlock.default membersKey)
    as (_ & (Hpc & _) & (Hsb & _)).
  split; [apply Hub; reflexivity|].
  split; [apply Hpc; reflexivity | apply Hsb; reflexivity].
Defined.

(** ** Decoding values of the wrong kind *)

(** The decoder never rejects a value.  An array element that is no
    object gives a default-constructed variable or member.  Under a key
    that is present, a value of the wrong kind reads as the default of
    the conversion, not as the absence sentinel: a location that is no
    number reads as 0, a type or an image format that is no string as
    unknown, a row-major flag that is no boolean as false, struct
    members that are no array as none. *)
Theorem decoding_wrong_kinds (x : QJsonValue) (obj : QJsonObject) :
  ((forall o, x <> JObject o) ->
   inOutVar (toObject x) = InOutVariable.default
   /\ blockVar (toObject x) = BlockVariable.default)
  /\ (contains obj locationKey = true ->
      (forall n, value obj locationKey <> JDouble n) ->
      InOutVariable.location (inOutVar obj) = 0)
  /\ ((forall s, value obj typeKey <> JString s) ->
      InOutVariable.type (inOutVar obj) = Unknown
      /\ BlockVariable.type (blockVar obj) = Unknown)
  /\ (contains obj imageFormatKey = true ->
      (forall s, value obj imageFormatKey <> JString s) ->
      InOutVariable.imageFormat (inOutVar obj) = ImageFormatUnknown)
  /\ (contains obj matrixRowMajorKey = true ->
      (forall b, value obj matrixRowMajorKey <> JBool b) ->
      BlockVariable.matrixIsRowMajor (blockVar obj) = false)
  /\ (contains obj structMembersKey = true ->
      (forall a, value obj structMembersKey <> JArray a) ->
      BlockVariable.structMembers (blockVar obj) = []).
Proof.
  refine (conj _ (conj _ (conj _ (conj _ (conj _ _))))).
  - intros Hx. destruct x; try (split; reflexivity).
    now destruct (Hx o).
  - intros Hc Hv. unfold inOutVar; simpl. rewrite Hc.
    destruct (value obj locationKey); try reflexivity. now destruct (Hv n).
  - intros Hv. rewrite blockVar_unfold. unfold inOutVar, blockVarFields; simpl.
    destruct (value obj typeKey); try (split; reflexivity). now destruct (Hv s).
  - intros Hc Hv. unfold inOutVar; simpl. rewrite Hc.
    destruct (value obj imageFormatKey); try reflexivity. now destruct (Hv s).
  - intros Hc Hv. rewrite blockVar_unfold. unfold blockVarFields; simpl.
    rewrite Hc.
    destruct (value obj matrixRowMajorKey); try reflexivity. now destruct (Hv b).
  - intros Hc Hv. rewrite blockVar_unfold. unfold blockVarFields; simpl.
    rewrite Hc.
    destruct (value obj structMembersKey); try reflexivity. now destruct (Hv a).
Qed.

Lemma decoding_wrong_kinds_witness :
  inOutVar (toObject (JDouble 7)) = InOutVariable.default
  /\ InOutVariable.location (inOutVar wrongKindsObject) = 0
  /\ InOutVariable.type (inOutVar wrongKindsObject) = Unknown
  /\ InOutVariable.imageFormat (inOutVar wrongKindsObject) = ImageFormatUnknown
  /\ BlockVariable.matrixIsRowMajor (blockVar wrongKindsObject) = false
  /\ BlockVariable.structMembers (blockVar wrongKindsObject) = [].
Proof.
  destruct (decoding_wrong_kinds (JDouble 7) wrongKindsObject)
    as (Hx & Hloc & Htype & Hfmt & Hrow & Hmembers).
  split; [apply Hx; discriminate|].
  split; [apply Hloc; [reflexivity | discriminate]|].
  split; [apply Htype; discriminate|].
  split; [apply Hfmt; [reflexivity | discriminate]|].
  split; [apply Hrow; [reflexivity | discriminate]|].
  apply Hmembers; [reflexivity | discriminate].
Defined.

Lemma mapImageFormat_never_rgba16_witness :
  mapImageFormat "rgba16" <> ImageFormatRgba16.
Proof. apply (mapImageFormat_never_rgba16 "rgba16"). Defined.

(** ** Further properties of the Null backend *)

Section NullBackendMore.
Context {F : TextureFormats}.

(** *** What recording leaves alone *)

Ltac split7 := refine (conj _ (conj _ (conj _ (conj _ (conj _ (conj _ _)))))).

Lemma textureOp_frame u (w w' : World) :
  textureOp u w = Some w' ->
  textures w' = textures w
  /\ renderBuffers w' = renderBuffers w
  /\ swapChains w' = swapChains w
  /\ currentSwapChain w' = currentSwapChain w
  /\ rhiP w' = rhiP w
  /\ (forall r, hasCallback w' r = hasCallback w r)
  /\ (forall r, is_Some (readbackResults w' !! r)
                <-> is_Some (readbackResults w !! r)).
Proof.
  destruct u as [rb resultP| | |]; simpl; intros H;
    [|injection H as <-; split7; auto; reflexivity ..].
  destruct (readbackResults w !! resultP) as [result|] eqn:Hres; simpl in H;
    [|discriminate].
  destruct (readbackSource rb w) as [[fmt size]|]; simpl in H; [|discriminate].
  injection H as <-.
  assert (Hresults :
    forall w0 : World,
      w0 = (if QRhiReadbackResult.completed result
            then setCompletedCalls (resultP :: completedCalls w)
                   (setReadbackResults
                      (<[resultP :=
                           QRhiReadbackResult.mk
                             (QRhiReadbackResult.completed result) fmt size
                             (fill Byte.x00
                                (intOfQuint32 (textureFormatInfo fmt size))
                                (QRhiReadbackResult.data result))]>
                         (readbackResults w)) w)
            else setReadbackResults
                   (<[resultP :=
                        QRhiReadbackResult.mk
                          (QRhiReadbackResult.completed result) fmt size
                          (fill Byte.x00
                             (intOfQuint32 (textureFormatInfo fmt size))
                             (QRhiReadbackResult.data result))]>
                      (readbackResults w)) w) ->
      readbackResults w0
      = <[resultP :=
            QRhiReadbackResult.mk (QRhiReadbackResult.completed result)
              fmt size
              (fill Byte.x00 (intOfQuint32 (textureFormatInfo fmt size))
                 (QRhiReadbackResult.data result))]> (readbackResults w)).
  { intros w0 ->. now destruct (QRhiReadbackResult.completed result). }
  split7;
    try (destruct (QRhiReadbackResult.completed result); reflexivity).
  - intros r. unfold hasCallback. rewrite (Hresults _ eq_refl).
    destruct (decide (resultP = r)) as [<-|Hne].
    + now rewrite lookup_insert_eq, Hres.
    + now rewrite lookup_insert_ne.
  - intros r. rewrite (Hresults _ eq_refl).
    destruct (decide (resultP = r)) as [<-|Hne].
    + rewrite lookup_insert_eq, Hres. split; eauto.
    + now rewrite lookup_insert_ne.
Qed.

Lemma resourceUpdate_frame ops : forall (w w' : World),
  resourceUpdate ops w = Some w' ->
  textures w' = textures w
  /\ renderBuffers w' = renderBuffers w
  /\ swapChains w' = swapChains w
  /\ currentSwapChain w' = currentSwapChain w
  /\ rhiP w' = rhiP w
  /\ (forall r, hasCallback w' r = hasCallback w r)
  /\ (forall r, is_Some (readbackResults w' !! r)
                <-> is_Some (readbackResults w !! r)).
Proof.
  induction ops as [|u rest IH]; simpl; intros w w' H.
  - injection H as <-. split7; auto; reflexivity.
  - destruct (textureOp u w) as [w1|] eqn:Hu; simpl in H; [|discriminate].
    apply textureOp_frame in Hu as (H1 & H2 & H3 & H4 & H5 & H6 & H7).
    apply IH in H as (G1 & G2 & G3 & G4 & G5 & G6 & G7).
    split7; try congruence; intros r;
      first [now rewrite G6 | now rewrite G7].
Qed.

Lemma record_frame c (w w' : World) :
  record c w = Some w' ->
  textures w' = textures w
  /\ renderBuffers w' = renderBuffers w
  /\ swapChains w' = swapChains w
  /\ currentSwapChain w' = currentSwapChain w
  /\ rhiP w' = rhiP w
  /\ (forall r, hasCallback w' r = hasCallback w r)
  /\ (forall r, is_Some (readbackResults w' !! r)
                <-> is_Some (readbackResults w !! r)).
Proof.
  destruct c as [| | | | | | | | | | | | | | | |[ru|]|[ru|]|[ru|]|[ru|]];
    simpl; intros H;
    try (injection H as <-; split7; auto; reflexivity);
    now apply resourceUpdate_frame in H.
Qed.

Lemma recordAll_frame (cs : list Command) (w w' : World) :
  recordAll cs w = Some w' ->
  textures w' = textures w
  /\ renderBuffers w' = renderBuffers w
  /\ swapChains w' = swapChains w
  /\ currentSwapChain w' = currentSwapChain w
  /\ rhiP w' = rhiP w
  /\ (forall r, hasCallback w' r = hasCallback w r)
  /\ (forall r, is_Some (readbackResults w' !! r)
                <-> is_Some (readbackResults w !! r)).
Proof.
  revert w w'. induction cs as [|c rest IH]; simpl; intros w w' H.
  - injection H as <-. split7; auto; reflexivity.
  - destruct (record c w) as [w1|] eqn:Hc; simpl in H; [|discriminate].
    apply record_frame in Hc as (H1 & H2 & H3 & H4 & H5 & H6 & H7).
    apply IH in H as (G1 & G2 & G3 & G4 & G5 & G6 & G7).
    split7; try congruence; intros r;
      first [now rewrite G6 | now rewrite G7].
Qed.

(** Recording, whatever the commands and the batches they carry, changes
    no texture, no render buffer, no swapchain, and neither the current
    swapchain nor the profiling sink; it frees no readback result and
    leaves the callbacks of the results in place.  Only the payloads of
    results and the list of completed callbacks change. *)
Theorem recording_leaves_resources (cs : list Command) (w w' : World) :
  recordAll cs w = Some w' ->
  textures w' = textures w
  /\ renderBuffers w' = renderBuffers w
  /\ swapChains w' = swapChains w
  /\ currentSwapChain w' = currentSwapChain w
  /\ rhiP w' = rhiP w
  /\ (forall r, hasCallback w' r = hasCallback w r)
  /\ (forall r, is_Some (readbackResults w' !! r)
                <-> is_Some (readbackResults w !! r)).
Proof. apply recordAll_frame. Qed.

(** *** Batches *)

Lemma resourceUpdate_filter ops : forall w : World,
  resourceUpdate ops w = resourceUpdate (List.filter isRead ops) w.
Proof.
  induction ops as [|u rest IH]; intros w; [reflexivity|].
  destruct u as [rb resultP| | |]; cbn [resourceUpdate List.filter isRead].
  - destruct (textureOp (Read rb resultP) w) as [w1|]; simpl;
      [apply IH | reflexivity].
  - apply IH.
  - apply IH.
  - apply IH.
Qed.

Lemma filter_isRead_none (ops : list TextureOp) :
  forallb (fun u => negb (isRead u)) ops = true -> List.filter isRead ops = [].
Proof.
  induction ops as [|u rest IH]; simpl; [reflexivity|].
  rewrite andb_true_iff. intros [Hu Hrest].
  destruct (isRead u); [discriminate | now apply IH].
Qed.

Lemma recordAll_readFree (cs : list Command) : forall w : World,
  forallb readFree cs = true -> recordAll cs w = Some w.
Proof.
  induction cs as [|c rest IH]; simpl; intros w; [reflexivity|].
  rewrite andb_true_iff. intros [Hc Hrest].
  assert (Hrec : record c w = Some w).
  { destruct c as [| | | | | | | | | | | | | | | |[ru|]|[ru|]|[ru|]|[ru|]];
      simpl in Hc |- *; try reflexivity;
      now rewrite resourceUpdate_filter, filter_isRead_none. }
  rewrite Hrec. simpl. now apply IH.
Qed.

(** Of the texture operations of a batch only the reads have an effect:
    uploads, copies and mipmap generations are skipped.  Recording
    commands whose batches carry no read always completes and leaves the
    world exactly as it was. *)
Theorem recording_without_reads (ops : list TextureOp) (cs : list Command)
  (w : World) :
  resourceUpdate ops w = resourceUpdate (List.filter isRead ops) w
  /\ (forallb readFree cs = true -> recordAll cs w = Some w).
Proof.
  split; [apply resourceUpdate_filter | apply recordAll_readFree].
Qed.

(** *** When a batch completes *)

Lemma textureOp_is_Some u (w : World) :
  is_Some (textureOp u w) <-> readLive w u = true.
Proof.
  destruct u as [rb resultP| | |]; simpl;
    [|split; [reflexivity | eauto] ..].
  rewrite andb_true_iff, bool_decide_eq_true.
  unfold readbackSource.
  destruct (readbackResults w !! resultP) as [result|]; simpl.
  - destruct (QRhiReadbackDescription.texture rb) as [texP|].
    + rewrite bool_decide_eq_true.
      destruct (textures w !! texP) as [tex|]; simpl.
      * split; [intros _; split; eauto | intros _; eauto].
      * split; [intros [x Hx]; discriminate | intros [_ [x Hx]]; discriminate].
    + destruct (currentSwapChain w) as [swapChainP|]; simpl.
      * rewrite bool_decide_eq_true.
        destruct (swapChains w !! swapChainP) as [swapChainD|]; simpl.
        -- split; [intros _; split; eauto | intros _; eauto].
        -- split;
             [intros [x Hx]; discriminate | intros [_ [x Hx]]; discriminate].
      * split; [intros [x Hx]; discriminate | intros [_ Hx]; discriminate].
  - split; [intros [x Hx]; discriminate | intros [[x Hx] _]; discriminate].
Qed.

Lemma forallb_pointwise {A : Type} (f g : A -> bool) (l : list A) :
  (forall x, f x = g x) -> forallb f l = forallb g l.
Proof.
  intros H. induction l as [|x rest IH]; simpl; [reflexivity|].
  now rewrite H, IH.
Qed.

Lemma readLive_kept u u' (w w' : World) :
  textureOp u w = Some w' -> readLive w' u' = readLive w u'.
Proof.
  intros H. apply textureOp_frame in H as (Ht & _ & Hs & Hc & _ & _ & Hr).
  destruct u' as [rb resultP| | |]; simpl; try reflexivity.
  rewrite Ht, Hs, Hc. f_equal.
  apply bool_decide_ext, Hr.
Qed.

(** [resourceUpdate] completes exactly when every pointer its reads
    follow is live when the batch starts: the result of each read, and
    its texture or, for a read of the swapchain, the current swapchain
    of an active frame.  Otherwise the source dereferences a dangling or
    null pointer, or fails its assertion. *)
Theorem resourceUpdate_completes (ops : list TextureOp) (w : World) :
  is_Some (resourceUpdate ops w) <-> forallb (readLive w) ops = true.
Proof.
  revert w. induction ops as [|u rest IH]; intros w; simpl.
  - split; eauto.
  - rewrite andb_true_iff, <- textureOp_is_Some.
    destruct (textureOp u w) as [w1|] eqn:Hu; simpl.
    + rewrite IH.
      rewrite (forallb_pointwise (readLive w1) (readLive w) rest
                 (fun u' => readLive_kept u u' w w1 Hu)).
      split; [intros H; split; eauto | intros [_ H]; exact H].
    + split; [intros [x Hx]; discriminate | intros [[x Hx] _]; discriminate].
Qed.

(** *** Completion callbacks *)

Lemma callbacks_kept ops : forall (w w' : World),
  (forall r, hasCallback w' r = hasCallback w r) ->
  callbacks w' ops = callbacks w ops.
Proof.
  intros w w' H. unfold callbacks. apply flat_map_ext.
  intros [rb resultP| | |]; try reflexivity. now rewrite H.
Qed.

(** The callbacks of a batch are called during [resourceUpdate] itself:
    one call for each read whose result carries a callback, in the order
    of the batch, and no call for any other operation. *)
Theorem callbacks_called_once (ops : list TextureOp) (w w' : World) :
  resourceUpdate ops w = Some w' ->
  completedCalls w' = (rev (callbacks w ops) ++ completedCalls w)%list.
Proof.
  revert w. induction ops as [|u rest IH]; intros w; simpl; intros H.
  - now injection H as <-.
  - destruct (textureOp u w) as [w1|] eqn:Hu; simpl in H; [|discriminate].
    rewrite (IH w1 H).
    pose proof (textureOp_frame u w w1 Hu) as (_ & _ & _ & _ & _ & Hcb & _).
    rewrite (callbacks_kept rest w w1 Hcb).
    assert (Hstep :
      completedCalls w1
      = (match u with
         | Read _ resultP => if hasCallback w resultP then [resultP] else []
         | _ => []
         end ++ completedCalls w)%list).
    { destruct u as [rb resultP| | |]; simpl in Hu;
        try (injection Hu as <-; reflexivity).
      unfold hasCallback.
      destruct (readbackResults w !! resultP) as [result|]; simpl in Hu;
        [|discriminate].
      destruct (readbackSource rb w) as [[fmt size]|]; simpl in Hu;
        [|discriminate].
      injection Hu as <-.
      now destruct (QRhiReadbackResult.completed result). }
    rewrite Hstep.
    change (callbacks w (u :: rest))
      with (match u with
            | Read _ resultP => if hasCallback w resultP then [resultP] else []
            | _ => []
            end ++ callbacks w rest)%list.
    rewrite rev_app_distr, <- app_assoc. f_equal. f_equal.
    destruct u as [rb resultP| | |]; try reflexivity.
    now destruct (hasCallback w resultP).
Qed.

End NullBackendMore.

Section NullBackendFrames.
Context {F : TextureFormats}.

(** *** Frames *)

(** What a completed frame did. *)
Lemma frame_spec (swapChain : Ptr) (cs : list Command) (w w' : World) r1 r2 :
  frame swapChain cs w = Some (r1, r2, w') ->
  exists w1 swapChainD,
    recordAll cs (beginFrame swapChain w).2 = Some w1
    /\ swapChains w !! swapChain = Some swapChainD
    /\ r1 = QRhi.FrameOpSuccess /\ r2 = QRhi.FrameOpSuccess
    /\ swapChains w'
       = <[swapChain :=
             QNullSwapChain.mk
               (QNullSwapChain.m_currentPixelSize swapChainD)
               (QNullSwapChain.m_renderPassDesc swapChainD)
               (QNullSwapChain.rt swapChainD)
               (QNullSwapChain.frameCount swapChainD + 1)]> (swapChains w)
    /\ currentSwapChain w' = None
    /\ rhiP w'
       = QRHI_PROF_F (swapChainFrameGpuTime swapChain)
           (QRHI_PROF_F
              (endSwapChainFrame swapChain
                 (QNullSwapChain.frameCount swapChainD + 1))
              (QRHI_PROF_F (beginSwapChainFrame swapChain) (rhiP w)))
    /\ textures w' = textures w
    /\ renderBuffers w' = renderBuffers w
    /\ readbackResults w' = readbackResults w1
    /\ completedCalls w' = completedCalls w1.
Proof.
  unfold frame. simpl.
  destruct (recordAll cs _) as [w1|] eqn:Hrec; simpl; [|discriminate].
  pose proof (recordAll_frame cs _ w1 Hrec) as (Ht & Hrb & Hs & _ & Hp & _ & _).
  simpl in Ht, Hrb, Hs, Hp.
  unfold endFrame. rewrite Hs.
  destruct (swapChains w !! swapChain) as [swapChainD|]; simpl; [|discriminate].
  intros H. injection H as <- <- <-.
  exists w1, swapChainD. simpl. rewrite Hs, Hp, Ht, Hrb.
  repeat split.
Qed.

Lemma frame_readFree (swapChain : Ptr) (cs : list Command) (w : World)
  swapChainD :
  swapChains w !! swapChain = Some swapChainD ->
  forallb readFree cs = true ->
  exists w', frame swapChain cs w
             = Some (QRhi.FrameOpSuccess, QRhi.FrameOpSuccess, w').
Proof.
  intros Hlive Hfree. unfold frame. simpl.
  rewrite (recordAll_readFree cs _ Hfree). simpl.
  unfold endFrame. simpl. rewrite Hlive. simpl. eexists. reflexivity.
Qed.

(** Frames in a row on a live swapchain: when they complete, the frame
    counter has grown by their number and no frame is active; they do
    complete when no batch carries a read. *)
Theorem frames_count (swapChain : Ptr) (swapChainD : QNullSwapChain.t)
  (css : list (list Command)) (w : World) :
  swapChains w !! swapChain = Some swapChainD ->
  (forall w',
      frames swapChain css w = Some w' ->
      QNullSwapChain.frameCount <$> swapChains w' !! swapChain
      = Some (QNullSwapChain.frameCount swapChainD + Z.of_nat (length css))
      /\ (css <> [] -> currentSwapChain w' = None))
  /\ (forallb (forallb readFree) css = true ->
      is_Some (frames swapChain css w)).
Proof.
  revert swapChainD w. induction css as [|cs rest IH];
    intros swapChainD w Hlive.
  - split.
    + intros w' H. injection H as <-. rewrite Hlive. simpl.
      split; [f_equal; f_equal; lia | congruence].
    + intros _. simpl. eauto.
  - split.
    + intros w' H. cbn [frames] in H.
      destruct (frame swapChain cs w) as [[[r1 r2] w1]|] eqn:Hframe;
        simpl in H; [|discriminate].
      apply frame_spec in Hframe
        as (w0 & sc0 & _ & Hlive0 & _ & _ & Hs & Hcur & _).
      rewrite Hlive in Hlive0. injection Hlive0 as <-.
      assert (Hlive1 :
        swapChains w1 !! swapChain
        = Some (QNullSwapChain.mk
                  (QNullSwapChain.m_currentPixelSize swapChainD)
                  (QNullSwapChain.m_renderPassDesc swapChainD)
                  (QNullSwapChain.rt swapChainD)
                  (QNullSwapChain.frameCount swapChainD + 1)))
        by (rewrite Hs; apply lookup_insert_eq).
      destruct (IH _ w1 Hlive1) as [Hcount _].
      destruct (Hcount w' H) as [Hn Hc]. split.
      * rewrite Hn. simpl QNullSwapChain.frameCount. f_equal.
        rewrite length_cons. lia.
      * intros _. destruct rest as [|cs' rest'].
        -- simpl in H. injection H as <-. exact Hcur.
        -- apply Hc. discriminate.
    + intros Hfree. cbn [forallb] in Hfree.
      apply andb_true_iff in Hfree as [Hcs Hrest].
      destruct (frame_readFree swapChain cs w swapChainD Hlive Hcs)
        as [w1 Hframe].
      cbn [frames]. rewrite Hframe. simpl.
      apply frame_spec in Hframe
        as (w0 & sc0 & _ & Hlive0 & _ & _ & Hs & _).
      rewrite Hlive in Hlive0. injection Hlive0 as <-.
      assert (Hlive1 :
        swapChains w1 !! swapChain
        = Some (QNullSwapChain.mk
                  (QNullSwapChain.m_currentPixelSize swapChainD)
                  (QNullSwapChain.m_renderPassDesc swapChainD)
                  (QNullSwapChain.rt swapChainD)
                  (QNullSwapChain.frameCount swapChainD + 1)))
        by (rewrite Hs; apply lookup_insert_eq).
      destruct (IH _ w1 Hlive1) as [_ Htotal]. now apply Htotal.
Qed.

(** A frame on one swapchain leaves every other swapchain, every
    texture and every render buffer as they were. *)
Theorem frame_touches_one_swapChain (swapChain other : Ptr)
  (cs : list Command) (w w' : World) r1 r2 :
  frame swapChain cs w = Some (r1, r2, w') ->
  other <> swapChain ->
  swapChains w' !! other = swapChains w !! other
  /\ textures w' = textures w
  /\ renderBuffers w' = renderBuffers w.
Proof.
  intros Hframe Hne.
  apply frame_spec in Hframe
    as (w1 & swapChainD & _ & _ & _ & _ & Hs & _ & _ & Ht & Hrb & _).
  rewrite Hs, lookup_insert_ne by congruence. auto.
Qed.

(** A completed frame forwards exactly three events to the profiling
    sink, whatever was recorded in it: the begin of the frame, its end
    with the new frame count, and the frame time.  Without a sink there
    is none afterwards either. *)
Theorem frame_profiler_events (swapChain : Ptr) (swapChainD : QNullSwapChain.t)
  (cs : list Command) (w w' : World) r1 r2 :
  swapChains w !! swapChain = Some swapChainD ->
  frame swapChain cs w = Some (r1, r2, w') ->
  rhiP w'
  = match rhiP w with
    | Some events =>
        Some (frameEvents swapChain (QNullSwapChain.frameCount swapChainD)
              ++ events)%list
    | None => None
    end.
Proof.
  intros Hlive Hframe.
  apply frame_spec in Hframe
    as (w1 & sc0 & _ & Hlive0 & _ & _ & _ & _ & Hp & _).
  rewrite Hlive in Hlive0. injection Hlive0 as <-.
  rewrite Hp. now destruct (rhiP w).
Qed.

(** *** Reading the swapchain *)

(** After a completed frame no frame is active, and a batch that starts
    with a read of the swapchain (a read without texture) does not
    complete: the source asserts that a swapchain is current. *)
Theorem swapChain_read_needs_frame (swapChain : Ptr) (cs : list Command)
  (w w' : World) r1 r2 (rb : QRhiReadbackDescription.t) (resultP : Ptr)
  (ops : list TextureOp) :
  frame swapChain cs w = Some (r1, r2, w') ->
  QRhiReadbackDescription.texture rb = None ->
  currentSwapChain w' = None
  /\ resourceUpdate (Read rb resultP :: ops) w' = None.
Proof.
  intros Hframe Htex.
  apply frame_spec in Hframe as (w1 & sc0 & _ & _ & _ & _ & _ & Hcur & _).
  split; [exact Hcur|].
  simpl. unfold readbackSource. rewrite Htex, Hcur. simpl.
  now destruct (readbackResults w' !! resultP).
Qed.

(** In a frame on a swapchain that was built, a read of the swapchain
    completes and reports [RGBA8] and 1280x720; with four bytes for a
    texel of [RGBA8] the payload is 3686400 zero bytes. *)
Theorem swapChain_read_in_frame (swapChain resultP : Ptr)
  (swapChainD : QNullSwapChain.t) (result : QRhiReadbackResult.t)
  (layer level : Z) (w : World) :
  swapChains w !! swapChain = Some swapChainD ->
  readbackResults w !! resultP = Some result ->
  bytesPerTexel RGBA8 = 4 ->
  exists w1 w2 result',
    swapChainBuildOrResize swapChain w = Some (true, w1)
    /\ textureOp (Read (QRhiReadbackDescription.mk None layer level) resultP)
         (beginFrame swapChain w1).2 = Some w2
    /\ readbackResults w2 !! resultP = Some result'
    /\ QRhiReadbackResult.format result' = RGBA8
    /\ QRhiReadbackResult.pixelSize result' = QSize.mk 1280 720
    /\ Z.of_nat (length (QRhiReadbackResult.data result')) = 3686400
    /\ Forall (fun b => b = Byte.x00) (QRhiReadbackResult.data result').
Proof.
  intros Hlive Hresult Hbpp.
  unfold swapChainBuildOrResize. rewrite Hlive. simpl.
  eexists. eexists.
  exists (QRhiReadbackResult.mk (QRhiReadbackResult.completed result)
            RGBA8 (QSize.mk 1280 720)
            (fill Byte.x00
               (intOfQuint32 (textureFormatInfo RGBA8 (QSize.mk 1280 720)))
               (QRhiReadbackResult.data result))).
  split; [reflexivity|].
  unfold readbackSource. simpl. rewrite Hresult. simpl.
  rewrite lookup_insert_eq. simpl.
  split; [reflexivity|].
  split.
  { destruct (QRhiReadbackResult.completed result); simpl;
      apply lookup_insert_eq. }
  simpl. split; [reflexivity|]. split; [reflexivity|].
  split; [|apply fill_all].
  rewrite byteSize_in_range by (simpl; rewrite Hbpp; lia).
  rewrite length_fill by (simpl; rewrite Hbpp; lia).
  simpl. rewrite Hbpp. reflexivity.
Qed.

End NullBackendFrames.

Section NullBackendResources.
Context {F : TextureFormats}.

(** *** The pixel size of a texture render target *)

(** [build] takes the pixel size from the first color attachment: from
    its texture if it names one, else from its render buffer; a first
    color attachment that names neither makes [build] dereference a null
    pointer, whatever the depth attachments are.  Only without any color
    attachment is the depth-stencil buffer used, and only without that
    the depth texture; without any attachment the size is kept. *)
Theorem textureRenderTarget_pixelSize (self : QNullTextureRenderTarget)
  (w : World) :
  let desc := m_desc self in
  (forall first rest tex texD,
      QRhiTextureRenderTargetDescription.colorAttachments desc
      = first :: rest ->
      QRhiColorAttachment.texture first = Some tex ->
      textures w !! tex = Some texD ->
      exists self',
        textureRenderTargetBuild self w = Some (true, self')
        /\ textureRenderTargetPixelSize self' = QNullTexture.m_pixelSize texD)
  /\ (forall first rest rb rbD,
        QRhiTextureRenderTargetDescription.colorAttachments desc
        = first :: rest ->
        QRhiColorAttachment.texture first = None ->
        QRhiColorAttachment.renderBuffer first = Some rb ->
        renderBuffers w !! rb = Some rbD ->
        exists self',
          textureRenderTargetBuild self w = Some (true, self')
          /\ textureRenderTargetPixelSize self'
             = QNullRenderBuffer.m_pixelSize rbD)
  /\ (forall first rest,
        QRhiTextureRenderTargetDescription.colorAttachments desc
        = first :: rest ->
        QRhiColorAttachment.texture first = None ->
        QRhiColorAttachment.renderBuffer first = None ->
        textureRenderTargetBuild self w = None)
  /\ (forall rb rbD,
        QRhiTextureRenderTargetDescription.colorAttachments desc = [] ->
        QRhiTextureRenderTargetDescription.depthStencilBuffer desc = Some rb ->
        renderBuffers w !! rb = Some rbD ->
        exists self',
          textureRenderTargetBuild self w = Some (true, self')
          /\ textureRenderTargetPixelSize self'
             = QNullRenderBuffer.m_pixelSize rbD)
  /\ (forall tex texD,
        QRhiTextureRenderTargetDescription.colorAttachments desc = [] ->
        QRhiTextureRenderTargetDescription.depthStencilBuffer desc = None ->
        QRhiTextureRenderTargetDescription.depthTexture desc = Some tex ->
        textures w !! tex = Some texD ->
        exists self',
          textureRenderTargetBuild self w = Some (true, self')
          /\ textureRenderTargetPixelSize self' = QNullTexture.m_pixelSize texD)
  /\ (QRhiTextureRenderTargetDescription.colorAttachments desc = [] ->
      QRhiTextureRenderTargetDescription.depthStencilBuffer desc = None ->
      QRhiTextureRenderTargetDescription.depthTexture desc = None ->
      exists self',
        textureRenderTargetBuild self w = Some (true, self')
        /\ textureRenderTargetPixelSize self'
           = textureRenderTargetPixelSize self).
Proof.
  unfold textureRenderTargetBuild, texturePixelSize, renderBufferPixelSize,
    textureRenderTargetPixelSize.
  simpl.
  refine (conj _ (conj _ (conj _ (conj _ (conj _ _))))).
  - intros first rest tex texD H1 H2 H3. rewrite H1, H2. simpl.
    rewrite H3. simpl. eexists. split; reflexivity.
  - intros first rest rb rbD H1 H2 H3 H4. rewrite H1, H2, H3. simpl.
    rewrite H4. simpl. eexists. split; reflexivity.
  - intros first rest H1 H2 H3. rewrite H1, H2, H3. reflexivity.
  - intros rb rbD H1 H2 H3. rewrite H1, H2. simpl.
    rewrite H3. simpl. eexists. split; reflexivity.
  - intros tex texD H1 H2 H3 H4. rewrite H1, H2, H3. simpl.
    rewrite H4. simpl. eexists. split; reflexivity.
  - intros H1 H2 H3. rewrite H1, H2, H3. simpl. eexists. split; reflexivity.
Qed.

(** *** The mip levels a texture reports *)

(** The number of mip levels [QNullTexture::build] reports to the sink
    is at least 1; it is 1 for a texture that is not mip-mapped and for
    one of empty size; for a mip-mapped texture of non-empty size it is
    the least [n] whose last level [2^(n-1)] reaches the larger extent.
    (The source computes it as [qCeil(log2(max)) + 1] in floating
    point.) *)
Theorem texture_mipLevelCount (MipMapped : Z) (self : QNullTexture.t) :
  let n := QNullTexture.mipLevelCount MipMapped self in
  let size := QNullTexture.m_pixelSize self in
  1 <= n
  /\ (testFlag (QNullTexture.m_flags self) MipMapped = false -> n = 1)
  /\ (QSize.isEmpty size = true -> n = 1)
  /\ (testFlag (QNullTexture.m_flags self) MipMapped = true ->
      QSize.isEmpty size = false ->
      Z.max (QSize.width size) (QSize.height size) <= 2 ^ (n - 1)
      /\ 2 ^ (n - 1) < 2 * Z.max (QSize.width size) (QSize.height size)).
Proof.
  unfold QNullTexture.mipLevelCount, QNullTexture.ceilLog2, QSize.isEmpty.
  simpl.
  destruct (testFlag (QNullTexture.m_flags self) MipMapped).
  - refine (conj _ (conj _ (conj _ _))).
    + pose proof (Z.log2_up_nonneg
                    (Z.max
                       (QSize.width
                          (if (QSize.width (QNullTexture.m_pixelSize self) <? 1)
                              || (QSize.height (QNullTexture.m_pixelSize self)
                                  <? 1)
                           then QSize.mk 1 1
                           else QNullTexture.m_pixelSize self))
                       (QSize.height
                          (if (QSize.width (QNullTexture.m_pixelSize self) <? 1)
                              || (QSize.height (QNullTexture.m_pixelSize self)
                                  <? 1)
                           then QSize.mk 1 1
                           else QNullTexture.m_pixelSize self)))).
      lia.
    + discriminate.
    + intros ->. reflexivity.
    + intros _ Hsize. rewrite Hsize.
      apply orb_false_iff in Hsize as [Hw Hh].
      apply Z.ltb_ge in Hw, Hh.
      set (a := Z.max (QSize.width (QNullTexture.m_pixelSize self))
                  (QSize.height (QNullTexture.m_pixelSize self))).
      assert (Ha : 1 <= a) by (unfold a; lia).
      replace (Z.log2_up a + 1 - 1) with (Z.log2_up a) by lia.
      clearbody a.
      destruct (Z.eq_dec a 1) as [->|Hne].
      * change (Z.log2_up 1) with 0. simpl. lia.
      * pose proof (Z.log2_up_spec a ltac:(lia)) as [Hlo Hhi].
        split; [exact Hhi|].
        replace (Z.log2_up a) with (Z.succ (Z.pred (Z.log2_up a))) by lia.
        rewrite Z.pow_succ_r; [lia|].
        pose proof (Z.log2_up_pos a ltac:(lia)). lia.
  - refine (conj _ (conj _ (conj _ _))); try reflexivity; discriminate.
Qed.

End NullBackendResources.

(** *** The further properties on the concrete world *)

Lemma exampleCommands_recorded :
  exists w', recordAll exampleCommands exampleWorld = Some w'.
Proof. eexists. vm_compute. reflexivity. Qed.

Lemma exampleFrame_completed :
  exists r1 r2 w', frame 2%nat exampleCommands exampleWorld = Some (r1, r2, w').
Proof. eexists. eexists. eexists. vm_compute. reflexivity. Qed.

Lemma recording_leaves_resources_witness :
  exists w',
    recordAll exampleCommands exampleWorld = Some w'
    /\ textures w' = textures exampleWorld
    /\ swapChains w' = swapChains exampleWorld
    /\ rhiP w' = rhiP exampleWorld.
Proof.
  destruct exampleCommands_recorded as [w' H]. exists w'.
  split; [exact H|].
  destruct (recording_leaves_resources exampleCommands exampleWorld w' H)
    as (Ht & _ & Hs & _ & Hp & _).
  auto.
Defined.

Lemma recording_without_reads_witness :
  forallb readFree (customRender true) = true
  /\ recordAll (customRender true) exampleWorld = Some exampleWorld.
Proof.
  split; [reflexivity|].
  destruct (recording_without_reads [] (customRender true) exampleWorld)
    as [_ H].
  apply H. reflexivity.
Defined.

Lemma resourceUpdate_completes_witness :
  is_Some (resourceUpdate [exampleRead; Upload; largeRead] exampleWorld)
  /\ ~ is_Some (resourceUpdate [exampleRead; swapChainRead] exampleWorld).
Proof.
  split.
  - apply (resourceUpdate_completes [exampleRead; Upload; largeRead]
             exampleWorld).
    reflexivity.
  - intros H.
    apply (resourceUpdate_completes [exampleRead; swapChainRead] exampleWorld)
      in H.
    vm_compute in H. discriminate H.
Defined.

Lemma callbacks_called_once_witness :
  exists w',
    resourceUpdate [exampleRead; Upload; exampleRead] exampleWorld = Some w'
    /\ completedCalls w' = [3%nat; 3%nat].
Proof.
  assert (H : exists w',
             resourceUpdate [exampleRead; Upload; exampleRead] exampleWorld
             = Some w') by (eexists; vm_compute; reflexivity).
  destruct H as [w' H]. exists w'. split; [exact H|].
  apply (callbacks_called_once [exampleRead; Upload; exampleRead]
           exampleWorld w' H).
Defined.

Lemma frames_count_witness :
  swapChains exampleWorld !! 2%nat = Some QNullSwapChain.initial
  /\ exists w',
       frames 2%nat [customRender true; customRender false; customRender false]
         exampleWorld = Some w'
       /\ QNullSwapChain.frameCount <$> swapChains w' !! 2%nat = Some 3.
Proof.
  split; [reflexivity|].
  destruct (frames_count 2%nat QNullSwapChain.initial
              [customRender true; customRender false; customRender false]
              exampleWorld eq_refl) as [Hcount Htotal].
  destruct (Htotal eq_refl) as [w' H]. exists w'.
  split; [exact H|]. apply (Hcount w' H).
Defined.

Lemma frame_touches_one_swapChain_witness :
  exists r1 r2 w',
    frame 2%nat exampleCommands exampleWorld = Some (r1, r2, w')
    /\ swapChains w' !! 7%nat = swapChains exampleWorld !! 7%nat
    /\ textures w' = textures exampleWorld.
Proof.
  destruct exampleFrame_completed as (r1 & r2 & w' & H).
  exists r1, r2, w'. split; [exact H|].
  destruct (frame_touches_one_swapChain 2%nat 7%nat exampleCommands
              exampleWorld w' r1 r2 H) as (Hs & Ht & _);
    [discriminate | auto].
Defined.

Lemma frame_profiler_events_witness :
  exists r1 r2 w',
    frame 2%nat exampleCommands exampleWorld = Some (r1, r2, w')
    /\ rhiP w'
       = Some [swapChainFrameGpuTime 2%nat; endSwapChainFrame 2%nat 1;
               beginSwapChainFrame 2%nat].
Proof.
  destruct exampleFrame_completed as (r1 & r2 & w' & H).
  exists r1, r2, w'. split; [exact H|].
  apply (frame_profiler_events 2%nat QNullSwapChain.initial exampleCommands
           exampleWorld w' r1 r2 eq_refl H).
Defined.

Lemma swapChain_read_needs_frame_witness :
  exists r1 r2 w',
    frame 2%nat exampleCommands exampleWorld = Some (r1, r2, w')
    /\ currentSwapChain w' = None
    /\ resourceUpdate [swapChainRead] w' = None.
Proof.
  destruct exampleFrame_completed as (r1 & r2 & w' & H).
  exists r1, r2, w'. split; [exact H|].
  apply (swapChain_read_needs_frame 2%nat exampleCommands exampleWorld w'
           r1 r2 (QRhiReadbackDescription.mk None 0 0) 3%nat [] H).
  reflexivity.
Defined.

Lemma swapChain_read_in_frame_witness :
  exists w1 w2 result',
    swapChainBuildOrResize 2%nat exampleWorld = Some (true, w1)
    /\ textureOp swapChainRead (beginFrame 2%nat w1).2 = Some w2
    /\ readbackResults w2 !! 3%nat = Some result'
    /\ QRhiReadbackResult.format result' = (RGBA8 : @Format basicFormats)
    /\ QRhiReadbackResult.pixelSize result' = QSize.mk 1280 720
    /\ Z.of_nat (length (QRhiReadbackResult.data result')) = 3686400
    /\ Forall (fun b => b = Byte.x00) (QRhiReadbackResult.data result').
Proof.
  apply (swapChain_read_in_frame 2%nat 3%nat QNullSwapChain.initial
           exampleResult 0 0 exampleWorld); reflexivity.
Defined.

Lemma textureRenderTarget_pixelSize_witness :
  exists self',
    textureRenderTargetBuild exampleRenderTarget exampleWorld
    = Some (true, self')
    /\ textureRenderTargetPixelSize self' = QSize.mk 256 256.
Proof.
  destruct (textureRenderTarget_pixelSize exampleRenderTarget exampleWorld)
    as (Htex & _).
  apply (Htex (QRhiColorAttachment.mk (Some 1%nat) None) [] 1%nat
           exampleTexture); reflexivity.
Defined.

Lemma texture_mipLevelCount_witness :
  QNullTexture.mipLevelCount 8
    (QNullTexture.mk (RGBA8 : @Format basicFormats) (QSize.mk 256 100) 1 8)
  = 9
  /\ 256 <= 2 ^ (9 - 1) < 2 * 256.
Proof.
  destruct (texture_mipLevelCount 8
              (QNullTexture.mk (RGBA8 : @Format basicFormats)
                 (QSize.mk 256 100) 1 8))
    as (_ & _ & _ & Hbounds).
  split; [reflexivity|].
  apply Hbounds; reflexivity.
Defined.
